(** * libdragon-docker: the command-line wrapper [index.js]

    A shallow embedding of the script that drives the libdragon toolchain
    container: option resolution, the asynchronous actions (as command
    programs over the host's process runner), the path translation used by
    [install], and the argument dispatcher.

    Part I holds the definitions, Part II the properties the interface
    promises, Part III further properties of the script. *)

From Stdlib Require Import String Ascii List Bool Arith Lia.
Import ListNotations.
Open Scope string_scope.

(** * Part I: definitions *)

(** ** JavaScript strings *)

Module JS.

(** Truthiness of a string value: only the empty string is falsy. *)
Definition truthy (s : string) : bool :=
  match s with
  | EmptyString => false
  | String _ _ => true
  end.

(** [v || d] on an environment entry that may be undefined. *)
Definition or_default (v : option string) (d : string) : string :=
  match v with
  | Some s => if truthy s then s else d
  | None => d
  end.

(** [v === s] for an environment entry that may be undefined. *)
Definition strict_eq (v : option string) (s : string) : bool :=
  match v with
  | Some x => String.eqb x s
  | None => false
  end.

(** [s.split(c)] for a one-character separator, as head piece and rest. *)
Fixpoint split_by (is_sep : ascii -> bool) (s : string) : string * list string :=
  match s with
  | EmptyString => (EmptyString, [])
  | String c s' =>
      let (p, ps) := split_by is_sep s' in
      if is_sep c then (EmptyString, p :: ps) else (String c p, ps)
  end.

Definition fields (is_sep : ascii -> bool) (s : string) : list string :=
  let (p, ps) := split_by is_sep s in p :: ps.

(** [s.split(sep)] for a non-empty separator string; [skip] counts the
    characters of a separator occurrence that are still to be passed. *)
Fixpoint split_go (sep : string) (skip : nat) (s : string) : string * list string :=
  match s with
  | EmptyString => (EmptyString, [])
  | String c s' =>
      match skip with
      | S k => split_go sep k s'
      | O =>
          if String.prefix sep s then
            let (p, ps) := split_go sep (String.length sep - 1) s' in
            (EmptyString, p :: ps)
          else
            let (p, ps) := split_go sep 0 s' in
            (String c p, ps)
      end
  end.

Definition split (sep s : string) : list string :=
  let (p, ps) := split_go sep 0 s in p :: ps.

(** [s.indexOf(sep) >= 0]. *)
Fixpoint includes (sep s : string) : bool :=
  String.prefix sep s ||
  match s with
  | EmptyString => false
  | String _ s' => includes sep s'
  end.

(** [s.replace(new RegExp('\\' + c), r)]: the pattern is the escaped
    character [c] and carries no flag, so only the first occurrence of
    [c] is replaced. *)
Fixpoint replace_first (c : ascii) (r : string) (s : string) : string :=
  match s with
  | EmptyString => EmptyString
  | String x s' =>
      if Ascii.eqb x c then r ++ s' else String x (replace_first c r s')
  end.

(** The replacement a pattern with the global flag would perform. *)
Fixpoint replace_all (c : ascii) (r : string) (s : string) : string :=
  match s with
  | EmptyString => EmptyString
  | String x s' =>
      if Ascii.eqb x c then r ++ replace_all c r s'
      else String x (replace_all c r s')
  end.

(** lodash [_.uniq]: the first occurrence of every value is kept. *)
Fixpoint uniq (l : list string) : list string :=
  match l with
  | [] => []
  | x :: xs => x :: filter (fun y => negb (String.eqb x y)) (uniq xs)
  end.

Fixpoint last_char (s : string) : option ascii :=
  match s with
  | EmptyString => None
  | String c EmptyString => Some c
  | String _ s' => last_char s'
  end.

Definition ends_with (p : ascii -> bool) (s : string) : bool :=
  match last_char s with
  | Some c => p c
  | None => false
  end.

Definition starts_with (p : ascii -> bool) (s : string) : bool :=
  match s with
  | String c _ => p c
  | EmptyString => false
  end.

Definition to_lower_char (c : ascii) : ascii :=
  let n := nat_of_ascii c in
  if Nat.leb 65 n && Nat.leb n 90 then ascii_of_nat (n + 32) else c.

Fixpoint to_lower (s : string) : string :=
  match s with
  | EmptyString => EmptyString
  | String c s' => String (to_lower_char c) (to_lower s')
  end.

End JS.

Definition newline : ascii := "010"%char.
Definition dquote : string := String (ascii_of_nat 34) EmptyString.
Definition backslash : ascii := "\"%char.
Definition slash : ascii := "/"%char.

(** ** Node's [path] module

    [path.posix] follows Node's algorithm: [join] concatenates the
    non-empty arguments with a slash and normalises the outcome.  The host's
    own module is a parameter of the script ([path.sep], [path.join],
    [path.relative]); it is [posix] on a POSIX host and [win32] on Windows.
    The Windows instance covers drive-letter paths (no UNC shares, no
    per-drive working directories). *)

Module Path.

Definition is_slash (c : ascii) : bool := Ascii.eqb c slash.

Definition is_win_sep (c : ascii) : bool :=
  Ascii.eqb c backslash || Ascii.eqb c slash.

(** [normalizeString]: empty and dot segments vanish, a double dot removes
    the segment before it; [stack] holds the kept segments, last first. *)
Fixpoint normalize_segments (above_root : bool) (stack segs : list string)
  : list string :=
  match segs with
  | [] => rev stack
  | seg :: rest =>
      if String.eqb seg EmptyString then normalize_segments above_root stack rest
      else if String.eqb seg "." then normalize_segments above_root stack rest
      else if String.eqb seg ".." then
        match stack with
        | top :: stack' =>
            if String.eqb top ".."
            then normalize_segments above_root (".." :: stack) rest
            else normalize_segments above_root stack' rest
        | [] =>
            if above_root
            then normalize_segments above_root [".."] rest
            else normalize_segments above_root [] rest
        end
      else normalize_segments above_root (seg :: stack) rest
  end.

Definition posix_is_absolute (p : string) : bool := JS.starts_with is_slash p.

Definition posix_normalize (p : string) : string :=
  if String.eqb p EmptyString then "."
  else
    let is_abs := posix_is_absolute p in
    let trailing := JS.ends_with is_slash p in
    let body :=
      String.concat "/" (normalize_segments (negb is_abs) [] (JS.fields is_slash p)) in
    if String.eqb body EmptyString then
      if is_abs then "/" else if trailing then "./" else "."
    else
      (if is_abs then "/" else EmptyString) ++ body ++
      (if trailing then "/" else EmptyString).

Definition posix_join (args : list string) : string :=
  match filter JS.truthy args with
  | [] => "."
  | parts => posix_normalize (String.concat "/" parts)
  end.

(** The segments of [path.resolve(p)] for a process whose working directory
    is [cwd]. *)
Definition posix_resolve (cwd p : string) : list string :=
  normalize_segments false []
    (JS.fields is_slash (if posix_is_absolute p then p else cwd ++ "/" ++ p)).

Fixpoint drop_common (eqb : string -> string -> bool) (a b : list string)
  : list string * list string :=
  match a, b with
  | x :: a', y :: b' => if eqb x y then drop_common eqb a' b' else (a, b)
  | _, _ => (a, b)
  end.

(** One double dot for every segment of [from] below the common ancestor,
    then what is left of [to]. *)
Definition relative_segments (eqb : string -> string -> bool)
  (from to : list string) : list string :=
  let (up, down) := drop_common eqb from to in
  map (fun _ => "..") up ++ down.

Definition posix_relative (cwd from to : string) : string :=
  String.concat "/"
    (relative_segments String.eqb (posix_resolve cwd from) (posix_resolve cwd to)).

Definition is_letter (c : ascii) : bool :=
  let n := nat_of_ascii (JS.to_lower_char c) in Nat.leb 97 n && Nat.leb n 122.

(** A leading drive designator and what follows it. *)
Definition split_device (p : string) : string * string :=
  match p with
  | String d (String colon rest) =>
      if is_letter d && Ascii.eqb colon ":"
      then (String d ":", rest) else (EmptyString, p)
  | _ => (EmptyString, p)
  end.

Definition win32_is_absolute (p : string) : bool :=
  JS.starts_with is_win_sep (snd (split_device p)).

Definition win32_normalize (p : string) : string :=
  if String.eqb p EmptyString then "."
  else
    let (device, rest) := split_device p in
    let is_abs := JS.starts_with is_win_sep rest in
    let trailing := JS.ends_with is_win_sep rest in
    let body :=
      String.concat "\" (normalize_segments (negb is_abs) [] (JS.fields is_win_sep rest)) in
    let tail :=
      if String.eqb body EmptyString then
        if is_abs then EmptyString else "."
      else body ++ (if trailing then "\" else EmptyString) in
    device ++ (if is_abs then "\" else EmptyString) ++ tail.

Definition win32_join (args : list string) : string :=
  match filter JS.truthy args with
  | [] => "."
  | parts => win32_normalize (String.concat "\" parts)
  end.

(** Drive designator first, then the segments of the resolved path. *)
Definition win32_resolve (cwd p : string) : list string :=
  let full := if win32_is_absolute p then p else cwd ++ "\" ++ p in
  let (device, rest) := split_device full in
  device :: normalize_segments false [] (JS.fields is_win_sep rest).

Definition win32_unsplit (segs : list string) : string :=
  match segs with
  | [] => EmptyString
  | device :: rest => device ++ "\" ++ String.concat "\" rest
  end.

Definition eqb_nocase (a b : string) : bool :=
  String.eqb (JS.to_lower a) (JS.to_lower b).

(** Paths are compared without regard to the case of the letters A to Z; a
    path on another drive is returned as it is. *)
Definition win32_relative (cwd from to : string) : string :=
  let f := win32_resolve cwd from in
  let t := win32_resolve cwd to in
  match f, t with
  | df :: f', dt :: t' =>
      if eqb_nocase df dt
      then String.concat "\" (relative_segments eqb_nocase f' t')
      else win32_unsplit t
  | _, _ => win32_unsplit t
  end.

Record module := {
  sep : ascii;
  join : list string -> string;
  relative : string -> string -> string
}.

Definition posix (cwd : string) : module :=
  {| sep := slash; join := posix_join; relative := posix_relative cwd |}.

Definition win32 (cwd : string) : module :=
  {| sep := backslash; join := win32_join; relative := win32_relative cwd |}.

End Path.

(** ** Process environment and options *)

Record environment := {
  env_npm_package_name : option string;
  env_CI : option string;
  env_IS_DOCKER : option string
}.

Definition BASE_VERSION := "toolchain".
Definition DOCKER_HUB_NAME := "anacierdem/libdragon".
Definition UPDATE_LATEST := true.

Record options := {
  PROJECT_NAME : string;
  BYTE_SWAP : bool;
  MOUNT_PATH : string;
  IS_CI : bool;
  SELF_BUILD : bool
}.

(** The default options object, with [SELF_BUILD] assigned right after it. *)
Definition default_options (env : environment) (cwd : string) : options :=
  let name := JS.or_default (env_npm_package_name env) "libdragon" in
  let ci := JS.strict_eq (env_CI env) "true" in
  {| PROJECT_NAME := name;
     BYTE_SWAP := false;
     MOUNT_PATH := cwd;
     IS_CI := ci;
     SELF_BUILD := if String.eqb name "libdragon" then ci else false |}.

(** [process.env.IS_DOCKER === 'true'] *)
Definition in_container (env : environment) : bool :=
  JS.strict_eq (env_IS_DOCKER env) "true".

(** The path translation of [install]: [relativePath] and
    [containerPath]. *)
Definition relativePath (pm : Path.module) (opts : options) (hostPath : string)
  : string :=
  JS.replace_first (Path.sep pm) "/" (Path.relative pm (MOUNT_PATH opts) hostPath).

Definition containerPath (pm : Path.module) (opts : options) (hostPath : string)
  : string :=
  Path.posix_join ["/"; PROJECT_NAME opts; relativePath pm opts hostPath; "/"].

Definition makePath (pm : Path.module) (opts : options) (hostPath : string)
  : string :=
  Path.posix_join [containerPath pm opts hostPath; "Makefile"].

(** ** Asynchronous programs

    An [async] function is a program that issues commands through
    [runCommand] and probes files through [fs.access], each continuation
    being what follows the [await].  A rejected command rejects the
    program, there being no [catch] around any [await] but the one of
    [install], which passes the error on. *)

Inductive error :=
| ExecutionError (code : nat)
| Reason (msg : string)
| TypeError.

Inductive result (A : Type) :=
| Resolved (a : A)
| Rejected (e : error).

Arguments Resolved {A} a.
Arguments Rejected {A} e.

Inductive prog (A : Type) :=
| Ret (a : A)
| Throw (e : error)
| Exec (cmd : string) (k : string -> prog A)
| Access (file : string) (k : bool -> prog A).

Arguments Ret {A} a.
Arguments Throw {A} e.
Arguments Exec {A} cmd k.
Arguments Access {A} file k.

Fixpoint bind {A B : Type} (p : prog A) (f : A -> prog B) : prog B :=
  match p with
  | Ret a => f a
  | Throw e => Throw e
  | Exec cmd k => Exec cmd (fun out => bind (k out) f)
  | Access file k => Access file (fun found => bind (k found) f)
  end.

Notation "x <- p ;; q" := (bind p (fun x => q))
  (at level 61, p at next level, right associativity).
Notation "p >> q" := (bind p (fun _ => q))
  (at level 61, right associativity).

(** [runCommand(cmd)] resolves with the standard output of the command. *)
Definition runCommand (cmd : string) : prog string :=
  Exec cmd (fun stdout => Ret stdout).

(** [if (c) { await p }] *)
Definition when (c : bool) (p : prog string) : prog unit :=
  if c then p >> Ret tt else Ret tt.

(** [Promise.all] over started [async] calls, taken in index order: the
    script starts every call before any answers, the model runs them one
    after the other and stops at the first failure. *)
Fixpoint all {A : Type} (ps : list (prog A)) : prog (list A) :=
  match ps with
  | [] => Ret []
  | p :: ps' => x <- p ;; xs <- all ps' ;; Ret (x :: xs)
  end.

(** A promise as [deps.map] leaves it: settled on the spot, or waiting for
    the callback of [fs.access]. *)
Inductive promise (A : Type) :=
| Settled (r : result A)
| Pending (p : prog A).

Arguments Settled {A} r.
Arguments Pending {A} p.

Fixpoint first_rejection {A : Type} (ps : list (promise A)) : option error :=
  match ps with
  | [] => None
  | Settled (Rejected e) :: _ => Some e
  | _ :: ps' => first_rejection ps'
  end.

Definition await {A : Type} (p : promise A) : prog A :=
  match p with
  | Settled (Resolved a) => Ret a
  | Settled (Rejected e) => Throw e
  | Pending q => q
  end.

(** [Promise.all] over promises: the reactions of promises that are already
    rejected run, in index order, before any callback of a pending one, so
    the first of them is the reason of the rejection. *)
Definition promise_all {A : Type} (ps : list (promise A)) : prog (list A) :=
  match first_rejection ps with
  | Some e => Throw e
  | None => all (map await ps)
  end.

Record dependency := {
  dep_name : string;
  dep_paths : list string
}.

Definition ambiguous : error :=
  Reason "Using same dependency with different versions is not supported!".

Section Actions.

Variable env : environment.
Variable opts : options.
(** [version] of the script's own package.json *)
Variable version : string.
(** the host's [path] module *)
Variable pm : Path.module.
(** the keys of [dependencies] and [devDependencies] in the package.json of
    the working directory *)
Variable dependencies : list string.
Variable devDependencies : list string.

Definition list_command : string :=
  "docker container ls -qa -f name=^/" ++ PROJECT_NAME opts ++ "$".

Definition run_command (forceLatest : bool) : string :=
  "docker run --name=" ++
  PROJECT_NAME opts ++
  (if BYTE_SWAP opts then " -e N64_BYTE_SWAP=true" else EmptyString) ++
  " -e IS_DOCKER=true" ++
  " -d --mount type=bind,source=" ++ dquote ++
  MOUNT_PATH opts ++
  dquote ++ ",target=/" ++
  PROJECT_NAME opts ++
  " -w=" ++ dquote ++ "/" ++
  PROJECT_NAME opts ++
  dquote ++ " " ++
  DOCKER_HUB_NAME ++
  ":" ++
  (if negb forceLatest && SELF_BUILD opts then BASE_VERSION else version) ++
  " tail -f /dev/null".

Definition startToolchain (forceLatest : bool) : prog unit :=
  if in_container env then Ret tt
  else
    containerID <- runCommand list_command ;;
    when (JS.truthy containerID)
         (runCommand ("docker container rm -f " ++ containerID)) >>
    runCommand (run_command forceLatest) >>
    Ret tt.

Definition make (param : string) : prog unit :=
  if in_container env then
    runCommand ("make " ++ param) >> Ret tt
  else
    runCommand ("docker start " ++ PROJECT_NAME opts) >>
    runCommand ("docker exec " ++ PROJECT_NAME opts ++ " make " ++ param) >>
    Ret tt.

Definition download : prog unit :=
  if in_container env then Ret tt
  else
    runCommand ("docker pull " ++ DOCKER_HUB_NAME ++ ":" ++ BASE_VERSION) >>
    when (negb (SELF_BUILD opts))
         (runCommand ("docker pull " ++ DOCKER_HUB_NAME ++ ":" ++ version)) >>
    Ret tt.

Definition ps_command : string :=
  "docker ps -a -q -f name=^/" ++ PROJECT_NAME opts ++ "$".

Definition stop : prog unit :=
  if in_container env then Ret tt
  else
    list <- runCommand ps_command ;;
    when (JS.truthy list)
         (runCommand ("docker rm -f " ++ PROJECT_NAME opts)) >>
    Ret tt.

Definition buildDragon : prog unit :=
  runCommand
    ("docker build" ++
     " --build-arg DOCKER_HUB_NAME=" ++
     DOCKER_HUB_NAME ++
     " --build-arg BASE_VERSION=" ++
     BASE_VERSION ++
     " -t " ++
     DOCKER_HUB_NAME ++
     ":" ++
     version ++
     " -f ./dragon.Dockerfile ./") >>
  startToolchain true.

Definition initialize : prog unit :=
  if in_container env then Ret tt
  else
    runCommand ("docker build -t " ++ DOCKER_HUB_NAME ++ ":" ++ BASE_VERSION ++ " ./") >>
    buildDragon.

(** [Object.keys({...dependencies, ...devDependencies})] without the
    toolchain itself: a key stays where it first appears (keys that read as
    array indices, which JavaScript lists first, are not told apart). *)
Definition dependency_names : list string :=
  filter (fun dep => negb (String.eqb dep "libdragon"))
         (JS.uniq (dependencies ++ devDependencies)).

Definition resolve_dependency (dep : string) : prog dependency :=
  npmPath <- runCommand ("npm ls " ++ dep ++ " --parseable=true") ;;
  Ret {| dep_name := dep;
         dep_paths :=
           JS.uniq (filter JS.truthy (JS.fields (Ascii.eqb newline) npmPath)) |}.

Definition install_command (hostPath : string) : string :=
  let body :=
    "[ -f " ++
    makePath pm opts hostPath ++
    " ] &&  make -C " ++
    containerPath pm opts hostPath ++
    " && make -C " ++
    containerPath pm opts hostPath ++
    " install" in
  if in_container env then body
  else
    "docker exec " ++ PROJECT_NAME opts ++ " /bin/bash -c " ++ dquote ++ body ++ dquote.

(** The promise [deps.map] makes of one dependency.  With no path at all,
    [path.join(paths[0], 'Makefile')] is handed [undefined] and throws in
    the executor, which rejects the promise at once. *)
Definition install_dependency (d : dependency) : promise unit :=
  if Nat.ltb 1 (List.length (dep_paths d)) then Settled (Rejected ambiguous)
  else
    match dep_paths d with
    | [] => Settled (Rejected TypeError)
    | path0 :: _ =>
        Pending
          (Access (Path.join pm [path0; "Makefile"])
             (fun found =>
                if found then runCommand (install_command path0) >> Ret tt
                else Ret tt))
    end.

Definition resolve_all : prog (list dependency) :=
  all (map resolve_dependency dependency_names).

Definition install_all (deps : list dependency) : prog unit :=
  promise_all (map install_dependency deps) >> Ret tt.

Definition install : prog unit :=
  download >>
  startToolchain true >>
  deps <- resolve_all ;;
  install_all deps.

Definition update : prog unit :=
  if in_container env then Ret tt
  else
    stop >>
    runCommand ("docker push " ++ DOCKER_HUB_NAME ++ ":" ++ version) >>
    when UPDATE_LATEST
         (runCommand
            ("docker tag " ++
             DOCKER_HUB_NAME ++
             ":" ++
             version ++
             " " ++
             DOCKER_HUB_NAME ++
             ":latest") >>
          runCommand ("docker push " ++ DOCKER_HUB_NAME ++ ":latest")) >>
    Ret tt.

End Actions.

(** ** Running a program on a host *)

(** How a command ends: [exec] hands the callback the standard output, or
    an error that carries the exit status. *)
Inductive completion :=
| Stdout (out : string)
| Failure (code : nat).

Record system (W : Type) := {
  sys_exec : string -> W -> completion * W;
  sys_access : string -> W -> bool
}.

Arguments sys_exec {W} s cmd w.
Arguments sys_access {W} s file w.

(** The outcome, the host's state afterwards and the commands issued, in
    order. *)
Fixpoint run {W A : Type} (sys : system W) (p : prog A) (w : W)
  : result A * W * list string :=
  match p with
  | Ret a => (Resolved a, w, [])
  | Throw e => (Rejected e, w, [])
  | Exec cmd k =>
      match sys_exec sys cmd w with
      | (Stdout out, w') =>
          let '(r, w'', t) := run sys (k out) w' in (r, w'', cmd :: t)
      | (Failure code, w') => (Rejected (ExecutionError code), w', [cmd])
      end
  | Access file k => run sys (k (sys_access sys file w)) w
  end.

Definition outcome {W A : Type} (x : result A * W * list string) : result A :=
  fst (fst x).
Definition final {W A : Type} (x : result A * W * list string) : W :=
  snd (fst x).
Definition trace {W A : Type} (x : result A * W * list string) : list string :=
  snd x.

(** A command that force-removes containers. *)
Definition is_removal (cmd : string) : bool :=
  String.prefix "docker rm -f " cmd || String.prefix "docker container rm -f " cmd.

(** ** The container engine

    The engine's object store as the script sees it through the docker
    command line: containers have an identifier and a unique name and are
    running or stopped.  A command line is cut into words at blanks and line
    ends.  The filter [name=^/N$] selects the container whose name is [N];
    names are compared literally.  [rm -f] fails when an operand names no
    container, [run] fails on a name that is taken or ill-formed, [start]
    needs the container to exist and [exec] needs it to run; the process
    run inside the container, and every image command (pull, build, push,
    tag), is taken to succeed. *)

Module Docker.

Record container := {
  cid : nat;
  cname : string;
  running : bool
}.

Record store := {
  containers : list container;
  next_id : nat
}.

Definition digit (n : nat) : ascii := ascii_of_nat (48 + n mod 10).

Fixpoint digits (fuel n : nat) (acc : string) : string :=
  match fuel with
  | O => acc
  | S fuel' =>
      let acc' := String (digit n) acc in
      if Nat.ltb n 10 then acc' else digits fuel' (n / 10) acc'
  end.

(** The identifier as the listing prints it. *)
Definition show_id (n : nat) : string := digits (S n) n EmptyString.

Definition is_blank (c : ascii) : bool :=
  Ascii.eqb c " " || Ascii.eqb c newline.

Definition words (s : string) : list string :=
  filter JS.truthy (JS.fields is_blank s).

Definition alnum (c : ascii) : bool :=
  let n := nat_of_ascii c in
  (Nat.leb 48 n && Nat.leb n 57) ||
  (Nat.leb 65 n && Nat.leb n 90) ||
  (Nat.leb 97 n && Nat.leb n 122).

Definition name_char (c : ascii) : bool :=
  alnum c || Ascii.eqb c "_" || Ascii.eqb c "." || Ascii.eqb c "-".

Fixpoint forall_chars (p : ascii -> bool) (s : string) : bool :=
  match s with
  | EmptyString => true
  | String c s' => p c && forall_chars p s'
  end.

(** The engine's grammar of container names: [[a-zA-Z0-9][a-zA-Z0-9_.-]+]. *)
Definition valid_name (s : string) : bool :=
  match s with
  | String c (String c' s') => alnum c && name_char c' && forall_chars name_char s'
  | _ => false
  end.

Definition name_filter (flt : string) (c : container) : bool :=
  String.eqb flt ("name=^/" ++ cname c ++ "$").

(** An operand denotes a container by identifier or by name. *)
Definition refers (arg : string) (c : container) : bool :=
  String.eqb arg (show_id (cid c)) || String.eqb arg (cname c).

Definition line (s : string) : string := s ++ String newline EmptyString.

Definition listing (flt : string) (st : store) : completion * store :=
  (Stdout
     (String.concat EmptyString
        (map (fun c => line (show_id (cid c)))
             (filter (name_filter flt) (containers st)))),
   st).

Definition remove (args : list string) (st : store) : completion * store :=
  let st' :=
    {| containers :=
         filter (fun c => negb (existsb (fun a => refers a c) args)) (containers st);
       next_id := next_id st |} in
  if forallb (fun a => existsb (refers a) (containers st)) args
  then (Stdout (String.concat EmptyString (map line args)), st')
  else (Failure 1, st').

Definition create (name : string) (st : store) : completion * store :=
  if negb (valid_name name) then (Failure 125, st)
  else if existsb (fun c => String.eqb (cname c) name) (containers st)
  then (Failure 125, st)
  else
    (Stdout (line (show_id (next_id st))),
     {| containers :=
          containers st ++ [{| cid := next_id st; cname := name; running := true |}];
        next_id := S (next_id st) |}).

Definition start (arg : string) (st : store) : completion * store :=
  if existsb (refers arg) (containers st)
  then
    (Stdout (line arg),
     {| containers :=
          map (fun c =>
                 if refers arg c
                 then {| cid := cid c; cname := cname c; running := true |}
                 else c)
              (containers st);
        next_id := next_id st |})
  else (Failure 1, st).

Definition exec_in (arg : string) (st : store) : completion * store :=
  if existsb (fun c => refers arg c && running c) (containers st)
  then (Stdout EmptyString, st)
  else (Failure 1, st).

(** The words of [args] after the words of [pre], when it starts with them. *)
Fixpoint after (pre args : list string) : option (list string) :=
  match pre, args with
  | [], _ => Some args
  | p :: pre', a :: args' => if String.eqb p a then after pre' args' else None
  | _ :: _, [] => None
  end.

Fixpoint drop (n : nat) (s : string) : string :=
  match n, s with
  | S n', String _ s' => drop n' s'
  | _, _ => s
  end.

Definition docker (args : list string) (st : store) : completion * store :=
  match after ["container"; "ls"; "-qa"; "-f"] args with
  | Some [flt] => listing flt st
  | _ =>
  match after ["ps"; "-a"; "-q"; "-f"] args with
  | Some [flt] => listing flt st
  | _ =>
  match after ["container"; "rm"; "-f"] args with
  | Some targets => remove targets st
  | None =>
  match after ["rm"; "-f"] args with
  | Some targets => remove targets st
  | None =>
  match after ["run"] args with
  | Some (name_option :: _) =>
      if String.prefix "--name=" name_option
      then create (drop 7 name_option) st
      else (Failure 125, st)
  | Some [] => (Failure 125, st)
  | None =>
  match after ["start"] args with
  | Some [target] => start target st
  | Some _ => (Failure 1, st)
  | None =>
  match after ["exec"] args with
  | Some (target :: _ :: _) => exec_in target st
  | Some _ => (Failure 1, st)
  | None => (Stdout EmptyString, st)
  end end end end end end end.

Definition command (cmd : string) (st : store) : completion * store :=
  match words cmd with
  | program :: args =>
      if String.eqb program "docker" then docker args st
      else (Failure 127, st)
  | [] => (Stdout EmptyString, st)
  end.

(** A host on which only the engine answers commands; [files] tells the
    files that exist. *)
Definition host (files : string -> bool) : system store :=
  {| sys_exec := command; sys_access := fun file _ => files file |}.

Definition engine : system store := host (fun _ => false).

(** The containers that bear a given name. *)
Definition named (name : string) (st : store) : list container :=
  filter (fun c => String.eqb (cname c) name) (containers st).

End Docker.

(** ** The argument dispatcher *)

Inductive action :=
| Start | Download | Init | Install | Make | Stop | BuildDragon | Update.

(** The own properties of [availableActions], in source order. *)
Definition availableActions : list (string * action) :=
  [("start", Start); ("download", Download); ("init", Init);
   ("install", Install); ("make", Make); ("stop", Stop);
   ("buildDragon", BuildDragon); ("update", Update)].

(** The function-valued properties an object literal inherits from
    [Object.prototype]. *)
Definition Object_prototype_functions : list string :=
  ["constructor"; "hasOwnProperty"; "isPrototypeOf"; "propertyIsEnumerable";
   "toLocaleString"; "toString"; "valueOf"; "__defineGetter__";
   "__defineSetter__"; "__lookupGetter__"; "__lookupSetter__"].

Inductive property :=
| Own (a : action)
| Inherited
| NotAFunction.

Fixpoint assoc {A : Type} (key : string) (l : list (string * A)) : option A :=
  match l with
  | [] => None
  | (k, v) :: l' => if String.eqb k key then Some v else assoc key l'
  end.

(** [availableActions[val]] with [typeof ... === 'function']. *)
Definition lookup (val : string) : property :=
  match assoc val availableActions with
  | Some a => Own a
  | None =>
      if existsb (String.eqb val) Object_prototype_functions
      then Inherited else NotAFunction
  end.

Record dispatcher := {
  d_options : options;
  d_stdout : list string;
  d_started : list (action * string)
}.

(** What becomes of the process at one argument: the loop goes on, the
    process exits, or an exception escapes the callback. *)
Inductive status :=
| Going
| Exited (code : nat)
| Uncaught (e : error).

Section Dispatch.

Variable pm : Path.module.
Variable cwd : string.
Variable argv : list string.

Definition set_mount_path (o : options) (p : string) : options :=
  {| PROJECT_NAME := PROJECT_NAME o; BYTE_SWAP := BYTE_SWAP o;
     MOUNT_PATH := p; IS_CI := IS_CI o; SELF_BUILD := SELF_BUILD o |}.

Definition set_byte_swap (o : options) : options :=
  {| PROJECT_NAME := PROJECT_NAME o; BYTE_SWAP := true;
     MOUNT_PATH := MOUNT_PATH o; IS_CI := IS_CI o; SELF_BUILD := SELF_BUILD o |}.

(** The callback of [process.argv.forEach]. *)
Definition visit (index : nat) (val : string) (d : dispatcher)
  : status * dispatcher :=
  if Nat.ltb index 1 then (Going, d)
  else if String.prefix "--mount-path=" val then
    match nth_error (JS.split "--mount-path=" val) 1 with
    | Some p =>
        (Going,
         {| d_options := set_mount_path (d_options d) (Path.join pm [cwd; p]);
            d_stdout := d_stdout d;
            d_started := d_started d |})
    | None => (Uncaught TypeError, d)
    end
  else if String.eqb val "--byte-swap" then
    (Going,
     {| d_options := set_byte_swap (d_options d);
        d_stdout := d_stdout d;
        d_started := d_started d |})
  else if String.eqb val "--help" then
    (Exited 0,
     {| d_options := d_options d;
        d_stdout := d_stdout d ++ "Available actions:" :: map fst availableActions;
        d_started := d_started d |})
  else
    match lookup val with
    | Own a =>
        let params := skipn (index + 1) argv in
        let param := String.concat " " params in
        (Going,
         {| d_options := d_options d;
            d_stdout := d_stdout d;
            d_started := d_started d ++ [(a, param)] |})
    | Inherited => (Uncaught TypeError, d)
    | NotAFunction => (Going, d)
    end.

Fixpoint forEach (index : nat) (vals : list string) (d : dispatcher)
  : status * dispatcher :=
  match vals with
  | [] => (Going, d)
  | val :: rest =>
      match visit index val d with
      | (Going, d') => forEach (S index) rest d'
      | halted => halted
      end
  end.

End Dispatch.

(** The script from its first line to the end of the argument loop. *)
Definition main (env : environment) (pm : Path.module) (cwd : string)
  (argv : list string) : status * dispatcher :=
  forEach pm cwd argv 0 argv
    {| d_options := default_options env cwd; d_stdout := []; d_started := [] |}.

(** The call [functionToRun(param)] of a started action; [startToolchain]
    takes the parameter for its [forceLatest]. *)
Definition perform (env : environment) (opts : options) (version : string)
  (pm : Path.module) (dependencies devDependencies : list string)
  (a : action) (param : string) : prog unit :=
  match a with
  | Start => startToolchain env opts version (JS.truthy param)
  | Download => download env opts version
  | Init => initialize env opts version
  | Install => install env opts version pm dependencies devDependencies
  | Make => make env opts param
  | Stop => stop env opts
  | BuildDragon => buildDragon env opts version
  | Update => update env opts version
  end.

(** ** Notions used in the statements *)

Definition is_space (c : ascii) : bool :=
  Ascii.eqb c " " || Ascii.eqb c newline ||
  Ascii.eqb c (ascii_of_nat 9) || Ascii.eqb c (ascii_of_nat 13).

(** Empty or made of white space only. *)
Definition whitespace_only (s : string) : bool := Docker.forall_chars is_space s.

(** No blank and no line end occurs in the string. *)
Definition blankfree (s : string) : bool :=
  Docker.forall_chars (fun c => negb (Docker.is_blank c)) s.

(** The two command lines of a proxied make, written out apart from the
    code. *)
Definition start_command (opts : options) : string :=
  "docker start " ++ PROJECT_NAME opts.

Definition exec_make_command (opts : options) (param : string) : string :=
  "docker exec " ++ PROJECT_NAME opts ++ " make " ++ param.

(** The anchored pattern the script builds from the project name. *)
Definition name_pattern (name : string) : string := "name=^/" ++ name ++ "$".

(** The program never rejects with [e] of its own accord. *)
Inductive never_throws {A : Type} (e : error) : prog A -> Prop :=
| nt_ret (a : A) : never_throws e (Ret a)
| nt_throw (e' : error) : e' <> e -> never_throws e (Throw e')
| nt_exec (cmd : string) (k : string -> prog A) :
    (forall out, never_throws e (k out)) -> never_throws e (Exec cmd k)
| nt_access (file : string) (k : bool -> prog A) :
    (forall found, never_throws e (k found)) -> never_throws e (Access file k).



(** The arguments the loop reaches: those before the first [--help]. *)
Fixpoint before_help (vals : list string) : list string :=
  match vals with
  | [] => []
  | val :: rest =>
      if String.eqb val "--help" then [] else val :: before_help rest
  end.

Definition has_help (vals : list string) : bool :=
  existsb (fun val => String.eqb val "--help") vals.

(** The call made for the argument at index [i], if it names an action:
    the action with the arguments after [i], joined by blanks. *)
Definition invocation (argv : list string) (i : nat) : list (action * string) :=
  match nth_error argv i with
  | Some val =>
      match assoc val availableActions with
      | Some a => [(a, String.concat " " (skipn (S i) argv))]
      | None => []
      end
  | None => []
  end.

Definition invocations (argv : list string) (from count : nat)
  : list (action * string) :=
  flat_map (invocation argv) (seq from count).

Definition started (env : environment) (pm : Path.module) (cwd : string)
  (argv : list string) : list (action * string) :=
  d_started (snd (main env pm cwd argv)).

(** The translation with every separator replaced, as a pattern with the
    global flag would have it. *)
Definition containerPath_global (pm : Path.module) (opts : options)
  (hostPath : string) : string :=
  Path.posix_join
    ["/"; PROJECT_NAME opts;
     JS.replace_all (Path.sep pm) "/" (Path.relative pm (MOUNT_PATH opts) hostPath);
     "/"].

(** A path segment: not empty, not a dot or a double dot, without slash. *)
Definition segment (s : string) : bool :=
  JS.truthy s && negb (String.eqb s ".") && negb (String.eqb s "..") &&
  Docker.forall_chars (fun c => negb (Path.is_slash c)) s.

(** The absolute POSIX path made of the segments. *)
Definition rooted (segs : list string) : string := "/" ++ String.concat "/" segs.

Definition mounted (mount name : string) : options :=
  {| PROJECT_NAME := name; BYTE_SWAP := false; MOUNT_PATH := mount;
     IS_CI := false; SELF_BUILD := false |}.

(** The mount path as the interface describes the flag: a relative value
    resolved against the working directory, an absolute one taken as it
    is. *)
Definition mount_path_described (cwd value : string) : string :=
  if Path.posix_is_absolute value then value
  else Path.posix_normalize (cwd ++ "/" ++ value).

(** ** Hosts and inputs of the examples *)

Definition sample_env : environment :=
  {| env_npm_package_name := Some "game"; env_CI := None; env_IS_DOCKER := None |}.

Definition container_env : environment :=
  {| env_npm_package_name := Some "game"; env_CI := None;
     env_IS_DOCKER := Some "true" |}.

Definition sample_options : options := default_options sample_env "/home/u/game".

Definition windows_options : options := default_options sample_env "C:\game".

(** A host that answers every command with the same output. *)
Definition answering (out : string) : system unit :=
  {| sys_exec := fun _ w => (Stdout out, w); sys_access := fun _ _ => false |}.

Definition two_paths : string :=
  "/home/u/game/node_modules/mikmod" ++ String newline
    ("/home/u/game/node_modules/n64/node_modules/mikmod" ++ String newline EmptyString).

Definition two_containers : Docker.store :=
  {| Docker.containers :=
       [{| Docker.cid := 12; Docker.cname := "game"; Docker.running := false |};
        {| Docker.cid := 3; Docker.cname := "other"; Docker.running := true |}];
     Docker.next_id := 13 |}.

Definition other_container : Docker.store :=
  {| Docker.containers :=
       [{| Docker.cid := 3; Docker.cname := "other"; Docker.running := true |}];
     Docker.next_id := 13 |}.

Definition mount_path_after (cwd value : string) : string :=
  MOUNT_PATH
    (d_options
       (snd (main sample_env (Path.posix cwd) cwd
               ["node"; "/home/u/game/node_modules/libdragon/index.js";
                "--mount-path=" ++ value]))).




(** A scoped package: its name is no container name. *)
Definition scoped_env : environment :=
  {| env_npm_package_name := Some "@n64/game"; env_CI := None;
     env_IS_DOCKER := None |}.

Definition scoped_options : options := default_options scoped_env "/home/u/game".

Definition empty_store : Docker.store :=
  {| Docker.containers := []; Docker.next_id := 0 |}.

(** ** Statements that fail as they are worded *)

(** C2 as it is worded, for any project name and store: after two starts
    exactly one container bears the name. *)
Definition two_starts_leave_one (env : environment) (opts : options)
  (version : string) (st : Docker.store) : Prop :=
  List.length
    (Docker.named (PROJECT_NAME opts)
       (final (run Docker.engine (startToolchain env opts version false)
                 (final (run Docker.engine (startToolchain env opts version false) st)))))
  = 1.


(** The listing policy as C3 words it, for a listing that printed [L]:
    removal is issued exactly when [L] is neither empty nor white space
    only. *)
Definition found_iff_not_blank (L : string) : Prop :=
  (existsb is_removal
     (trace (run (answering L) (startToolchain sample_env sample_options "1.0.0" false) tt))
   = true <-> whitespace_only L = false) /\
  (existsb is_removal
     (trace (run (answering L) (stop sample_env sample_options) tt))
   = true <-> whitespace_only L = false).

(** The dispatcher as C10 words it: every argument from index 1 on is
    examined and every action name among them is called. *)
Definition dispatches_every_argument (env : environment) (pm : Path.module)
  (cwd : string) (argv : list string) : Prop :=
  started env pm cwd argv = invocations argv 1 (List.length argv - 1).

(** ** Notions used in the further properties *)

(** The dispatcher before the first argument is looked at. *)
Definition initial (env : environment) (cwd : string) : dispatcher :=
  {| d_options := default_options env cwd; d_stdout := []; d_started := [] |}.

(** An argument that is no flag and names no function of
    [availableActions], own or inherited. *)
Definition plain_argument (val : string) : bool :=
  negb (String.prefix "--mount-path=" val) &&
  negb (String.eqb val "--byte-swap") &&
  negb (String.eqb val "--help") &&
  match lookup val with
  | NotAFunction => true
  | _ => false
  end.

Definition is_byte_swap (val : string) : bool := String.eqb val "--byte-swap".

(** A command handed to the container engine. *)
Definition docker_command (cmd : string) : bool := String.prefix "docker " cmd.

(** Every command the program can issue satisfies [P]. *)
Inductive issues_only {A : Type} (P : string -> bool) : prog A -> Prop :=
| io_ret (a : A) : issues_only P (Ret a)
| io_throw (e : error) : issues_only P (Throw e)
| io_exec (cmd : string) (k : string -> prog A) :
    P cmd = true -> (forall out, issues_only P (k out)) -> issues_only P (Exec cmd k)
| io_access (file : string) (k : bool -> prog A) :
    (forall found, issues_only P (k found)) -> issues_only P (Access file k).

Definition pull_command (tag : string) : string :=
  "docker pull " ++ DOCKER_HUB_NAME ++ ":" ++ tag.

Definition push_command (tag : string) : string :=
  "docker push " ++ DOCKER_HUB_NAME ++ ":" ++ tag.

Definition tag_latest_command (version : string) : string :=
  "docker tag " ++ DOCKER_HUB_NAME ++ ":" ++ version ++ " " ++
  DOCKER_HUB_NAME ++ ":latest".

Definition rm_command (opts : options) : string :=
  "docker rm -f " ++ PROJECT_NAME opts.

Definition npm_ls_command (dep : string) : string :=
  "npm ls " ++ dep ++ " --parseable=true".

(** A line of the output of npm: not empty and without a line end. *)
Definition path_line (p : string) : bool :=
  JS.truthy p && Docker.forall_chars (fun c => negb (Ascii.eqb newline c)) p.

(** The start, a make and the stop, one after the other. *)
Definition session (env : environment) (opts : options) (version : string)
  (forceLatest : bool) (param : string) : prog unit :=
  startToolchain env opts version forceLatest >>
  make env opts param >>
  stop env opts.

Definition build_dragon_command (version : string) : string :=
  "docker build --build-arg DOCKER_HUB_NAME=" ++ DOCKER_HUB_NAME ++
  " --build-arg BASE_VERSION=" ++ BASE_VERSION ++
  " -t " ++ DOCKER_HUB_NAME ++ ":" ++ version ++ " -f ./dragon.Dockerfile ./".

Definition not_docker (cmd : string) : bool := negb (docker_command cmd).

(** * Part II: properties *)

(** ** Strings and programs *)

Lemma truthy_true (s : string) : JS.truthy s = true <-> s <> EmptyString.
Proof. destruct s; simpl; split; congruence. Qed.

Lemma strict_eq_true (v : option string) (s : string) :
  JS.strict_eq v s = true <-> v = Some s.
Proof.
  destruct v as [x|]; simpl.
  - rewrite String.eqb_eq. split; congruence.
  - split; discriminate.
Qed.

Lemma run_bind {W A B : Type} (sys : system W) (p : prog A) (f : A -> prog B) :
  forall w,
    run sys (bind p f) w =
    match run sys p w with
    | (Resolved a, w', t) =>
        let '(r, w'', t') := run sys (f a) w' in (r, w'', (t ++ t')%list)
    | (Rejected e, w', t) => (Rejected e, w', t)
    end.
Proof.
  induction p as [a|e|cmd k IH|file k IH]; intros w; simpl.
  - destruct (run sys (f a) w) as [[r w''] t']. reflexivity.
  - reflexivity.
  - destruct (sys_exec sys cmd w) as [[out|code] w']; [|reflexivity].
    rewrite IH.
    destruct (run sys (k out) w') as [[[a|e] w''] t]; [|reflexivity].
    destruct (run sys (f a) w'') as [[r w3] t']. reflexivity.
  - apply IH.
Qed.

Lemma run_runCommand {W : Type} (sys : system W) (cmd : string) (w : W) :
  run sys (runCommand cmd) w =
  match sys_exec sys cmd w with
  | (Stdout out, w') => (Resolved out, w', [cmd])
  | (Failure code, w') => (Rejected (ExecutionError code), w', [cmd])
  end.
Proof.
  unfold runCommand; simpl. destruct (sys_exec sys cmd w) as [[out|code] w']; reflexivity.
Qed.

(** ** Options *)

(** C5: the derived self-build option is true exactly when the project name
    is the toolchain's own name, libdragon, and the CI variable is the
    string true; it is false in every other combination. *)
Theorem self_build_iff (env : environment) (cwd : string) :
  SELF_BUILD (default_options env cwd) = true <->
  PROJECT_NAME (default_options env cwd) = "libdragon" /\
  env_CI env = Some "true".
Proof.
  unfold default_options; simpl.
  destruct (String.eqb_spec (JS.or_default (env_npm_package_name env) "libdragon")
                            "libdragon") as [E|E].
  - rewrite strict_eq_true. tauto.
  - split; [discriminate | tauto].
Qed.

(** ** Inside the container *)

(** C4: with IS_DOCKER equal to true, start, stop, download and update
    return at once, whatever the options: no command is issued and the
    host's state is left as it was. *)
Theorem in_container_noop {W : Type} (sys : system W) (w : W)
  (env : environment) (opts : options) (version : string) (forceLatest : bool) :
  env_IS_DOCKER env = Some "true" ->
  run sys (startToolchain env opts version forceLatest) w = (Resolved tt, w, []) /\
  run sys (stop env opts) w = (Resolved tt, w, []) /\
  run sys (download env opts version) w = (Resolved tt, w, []) /\
  run sys (update env opts version) w = (Resolved tt, w, []).
Proof.
  intros H.
  assert (E : in_container env = true) by (apply strict_eq_true; exact H).
  unfold startToolchain, stop, download, update. rewrite E.
  repeat split; reflexivity.
Qed.

Lemma in_container_noop_witness :
  run Docker.engine (startToolchain container_env sample_options "1.0.0" false)
      {| Docker.containers := []; Docker.next_id := 0 |}
  = (Resolved tt, {| Docker.containers := []; Docker.next_id := 0 |}, []).
Proof.
  apply (in_container_noop Docker.engine {| Docker.containers := []; Docker.next_id := 0 |}
           container_env sample_options "1.0.0" false).
  reflexivity.
Defined.

(** ** Finding the container *)

Lemma trace_startToolchain {W : Type} (sys : system W) (w w' : W)
  (env : environment) (opts : options) (version : string) (forceLatest : bool)
  (L : string) :
  in_container env = false ->
  sys_exec sys (list_command opts) w = (Stdout L, w') ->
  existsb is_removal (trace (run sys (startToolchain env opts version forceLatest) w))
  = JS.truthy L.
Proof.
  intros Hc Hl. unfold startToolchain. rewrite Hc.
  simpl. rewrite Hl.
  destruct L as [|c L]; simpl.
  - destruct (sys_exec sys (run_command opts version forceLatest) w') as [[out|code] w2];
      reflexivity.
  - destruct (sys_exec sys _ w') as [[out|code] w2]; simpl.
    + destruct (sys_exec sys _ w2) as [[out2|code2] w3]; reflexivity.
    + reflexivity.
Qed.

Lemma trace_stop {W : Type} (sys : system W) (w w' : W)
  (env : environment) (opts : options) (L : string) :
  in_container env = false ->
  sys_exec sys (ps_command opts) w = (Stdout L, w') ->
  existsb is_removal (trace (run sys (stop env opts) w)) = JS.truthy L.
Proof.
  intros Hc Hl. unfold stop. rewrite Hc.
  simpl. rewrite Hl.
  destruct L as [|c L]; simpl.
  - reflexivity.
  - destruct (sys_exec sys _ w') as [[out|code] w2];
      destruct (PROJECT_NAME opts); reflexivity.
Qed.

(** C3, as amended: the container counts as found exactly when the listing
    printed something, be it white space only; then, and only then,
    [startToolchain] and [stop] issue their removal command. *)
Theorem found_iff_nonempty {W : Type} (sys : system W) (w w' : W)
  (env : environment) (opts : options) (version : string) (forceLatest : bool)
  (L : string) :
  in_container env = false ->
  (sys_exec sys (list_command opts) w = (Stdout L, w') ->
   (existsb is_removal
      (trace (run sys (startToolchain env opts version forceLatest) w)) = true
    <-> L <> EmptyString)) /\
  (sys_exec sys (ps_command opts) w = (Stdout L, w') ->
   (existsb is_removal (trace (run sys (stop env opts) w)) = true
    <-> L <> EmptyString)).
Proof.
  intros Hc. split; intros Hl.
  - rewrite (trace_startToolchain sys w w' env opts version forceLatest L Hc Hl).
    apply truthy_true.
  - rewrite (trace_stop sys w w' env opts L Hc Hl). apply truthy_true.
Qed.

Lemma found_iff_nonempty_witness :
  in_container sample_env = false /\
  (existsb is_removal
     (trace (run (answering "7f3a") (stop sample_env sample_options) tt)) = true
   <-> "7f3a" <> EmptyString).
Proof.
  split; [reflexivity|].
  apply (found_iff_nonempty (answering "7f3a") tt tt sample_env sample_options
           "1.0.0" false "7f3a"); reflexivity.
Defined.

(** A listing that printed a lone line end is white space only, and yet the
    removal command is issued. *)
Lemma lone_newline_is_found :
  ~ found_iff_not_blank (String newline EmptyString).
Proof.
  intros [H _]. destruct H as [H _].
  discriminate (H eq_refl).
Qed.

(** ** Words of a command line *)

Lemma fields_app_sep (is_sep : ascii -> bool) (a : string) (b : ascii) (c : string) :
  is_sep b = true ->
  JS.fields is_sep (a ++ String b c) = (JS.fields is_sep a ++ JS.fields is_sep c)%list.
Proof.
  intros Hb. unfold JS.fields. induction a as [|x a IH]; simpl.
  - rewrite Hb. destruct (JS.split_by is_sep c) as [p ps]. reflexivity.
  - destruct (JS.split_by is_sep (a ++ String b c)) as [p ps].
    destruct (JS.split_by is_sep a) as [p' ps'].
    destruct (JS.split_by is_sep c) as [q qs].
    simpl in IH. injection IH as -> ->.
    destruct (is_sep x); reflexivity.
Qed.

Lemma words_app_blank (a : string) (b : ascii) (c : string) :
  Docker.is_blank b = true ->
  Docker.words (a ++ String b c) = (Docker.words a ++ Docker.words c)%list.
Proof.
  intros Hb. unfold Docker.words. rewrite (fields_app_sep _ a b c Hb).
  apply filter_app.
Qed.

Lemma split_by_blankfree (s : string) :
  blankfree s = true -> JS.split_by Docker.is_blank s = (s, []).
Proof.
  induction s as [|c s IH]; simpl; intros H.
  - reflexivity.
  - apply andb_prop in H. destruct H as [Hc Hs].
    rewrite (IH Hs). apply negb_true_iff in Hc. rewrite Hc. reflexivity.
Qed.

Lemma words_single (s : string) :
  blankfree s = true -> JS.truthy s = true -> Docker.words s = [s].
Proof.
  intros Hb Ht. unfold Docker.words, JS.fields.
  rewrite (split_by_blankfree s Hb). simpl. rewrite Ht. reflexivity.
Qed.

Lemma blankfree_app (a b : string) :
  blankfree (a ++ b) = blankfree a && blankfree b.
Proof.
  unfold blankfree. induction a as [|c a IH]; simpl.
  - reflexivity.
  - rewrite IH. apply andb_assoc.
Qed.

Lemma truthy_app_l (a b : string) : JS.truthy a = true -> JS.truthy (a ++ b) = true.
Proof. destruct a; simpl; [discriminate | reflexivity]. Qed.

Lemma truthy_line (s : string) : JS.truthy (Docker.line s) = true.
Proof. destruct s; reflexivity. Qed.

(** The words of a line that starts with the word [w]. *)
Lemma words_cons_word (w rest : string) :
  blankfree w = true -> JS.truthy w = true ->
  Docker.words (w ++ String " " rest) = w :: Docker.words rest.
Proof.
  intros Hb Ht. rewrite words_app_blank by reflexivity.
  rewrite (words_single w Hb Ht). reflexivity.
Qed.

Lemma words_line (w : string) :
  blankfree w = true -> JS.truthy w = true -> Docker.words (Docker.line w) = [w].
Proof.
  intros Hb Ht. unfold Docker.line. rewrite words_app_blank by reflexivity.
  rewrite (words_single w Hb Ht). reflexivity.
Qed.

Lemma name_char_not_blank (c : ascii) :
  Docker.name_char c = true -> Docker.is_blank c = false.
Proof.
  intros H. destruct (Docker.is_blank c) eqn:E; [|reflexivity].
  unfold Docker.is_blank in E. apply orb_prop in E.
  destruct E as [E|E]; apply Ascii.eqb_eq in E; subst c; discriminate H.
Qed.

Lemma name_chars_blankfree (s : string) :
  Docker.forall_chars Docker.name_char s = true -> blankfree s = true.
Proof.
  unfold blankfree. induction s as [|c s IH]; simpl; intros H.
  - reflexivity.
  - apply andb_prop in H. destruct H as [Hc Hs].
    rewrite (name_char_not_blank c Hc). simpl. apply IH, Hs.
Qed.

Lemma alnum_name_char (c : ascii) : Docker.alnum c = true -> Docker.name_char c = true.
Proof. intros H. unfold Docker.name_char. rewrite H. reflexivity. Qed.

Lemma valid_name_blankfree (s : string) :
  Docker.valid_name s = true -> blankfree s = true /\ JS.truthy s = true.
Proof.
  destruct s as [|c [|c' s]]; simpl; try discriminate.
  intros H. apply andb_prop in H. destruct H as [H Hs].
  apply andb_prop in H. destruct H as [Hc Hc'].
  split; [|reflexivity].
  apply (name_chars_blankfree (String c (String c' s))). simpl.
  rewrite (alnum_name_char c Hc), Hc', Hs. reflexivity.
Qed.

Lemma digit_not_blank (n : nat) : Docker.is_blank (Docker.digit n) = false.
Proof.
  unfold Docker.digit. pose proof (Nat.mod_upper_bound n 10 ltac:(lia)) as H.
  destruct (n mod 10) as [|[|[|[|[|[|[|[|[|[|k]]]]]]]]]]; try reflexivity; lia.
Qed.

Lemma digits_blankfree (fuel : nat) :
  forall n acc, blankfree acc = true -> blankfree (Docker.digits fuel n acc) = true.
Proof.
  induction fuel as [|fuel IH]; simpl; intros n acc H.
  - exact H.
  - assert (H' : blankfree (String (Docker.digit n) acc) = true).
    { change (blankfree (String (Docker.digit n) acc))
        with (negb (Docker.is_blank (Docker.digit n)) && blankfree acc).
      rewrite digit_not_blank. exact H. }
    destruct (Nat.ltb n 10); [exact H' | apply IH, H'].
Qed.

Lemma digits_truthy (fuel : nat) :
  forall n acc, JS.truthy acc = true -> JS.truthy (Docker.digits fuel n acc) = true.
Proof.
  induction fuel as [|fuel IH]; simpl; intros n acc H.
  - exact H.
  - destruct (Nat.ltb n 10); [reflexivity | apply IH; reflexivity].
Qed.

Lemma show_id_word (n : nat) :
  blankfree (Docker.show_id n) = true /\ JS.truthy (Docker.show_id n) = true.
Proof.
  unfold Docker.show_id. split.
  - apply digits_blankfree. reflexivity.
  - simpl. destruct (Nat.ltb n 10); [reflexivity | apply digits_truthy; reflexivity].
Qed.

Lemma words_blank_cons (c : ascii) (s : string) :
  Docker.is_blank c = true -> Docker.words (String c s) = Docker.words s.
Proof.
  intros H. unfold Docker.words, JS.fields. simpl.
  destruct (JS.split_by Docker.is_blank s) as [p ps]. rewrite H. reflexivity.
Qed.

Lemma words_nonblank_cons (c : ascii) (s : string) :
  Docker.is_blank c = false ->
  Docker.words (String c s) =
  String c (fst (JS.split_by Docker.is_blank s)) ::
  filter JS.truthy (snd (JS.split_by Docker.is_blank s)).
Proof.
  intros H. unfold Docker.words, JS.fields. simpl.
  destruct (JS.split_by Docker.is_blank s) as [p ps]. rewrite H. reflexivity.
Qed.

Lemma words_dollar_nonempty (s : string) : Docker.words (s ++ "$") <> [].
Proof.
  induction s as [|c s IH]; simpl.
  - discriminate.
  - destruct (Docker.is_blank c) eqn:B.
    + rewrite words_blank_cons by exact B. exact IH.
    + rewrite words_nonblank_cons by exact B. discriminate.
Qed.

Lemma split_dollar_single (s : string) :
  filter JS.truthy (snd (JS.split_by Docker.is_blank (s ++ "$"))) = [] ->
  fst (JS.split_by Docker.is_blank (s ++ "$")) = s ++ "$".
Proof.
  induction s as [|c s IH]; simpl.
  - reflexivity.
  - pose proof (words_dollar_nonempty s) as Hne.
    unfold Docker.words, JS.fields in Hne.
    destruct (JS.split_by Docker.is_blank (s ++ "$")) as [p ps].
    destruct (Docker.is_blank c); simpl in *.
    + intros H. destruct (JS.truthy p); [discriminate H | contradiction].
    + intros H. rewrite (IH H). reflexivity.
Qed.

(** Whatever the name, the pattern is one word or falls into several. *)
Lemma words_name_pattern (name : string) :
  Docker.words (name_pattern name) = [name_pattern name] \/
  exists w1 w2 ws, Docker.words (name_pattern name) = w1 :: w2 :: ws.
Proof.
  unfold name_pattern.
  change ("name=^/" ++ name ++ "$") with (String "n" (("ame=^/" ++ name) ++ "$")).
  rewrite words_nonblank_cons by reflexivity.
  destruct (filter JS.truthy (snd (JS.split_by Docker.is_blank (("ame=^/" ++ name) ++ "$"))))
    as [|w2 ws] eqn:E.
  - left. rewrite (split_dollar_single _ E). reflexivity.
  - right. eauto.
Qed.

Lemma words_name_pattern_valid (name : string) :
  blankfree name = true -> Docker.words (name_pattern name) = [name_pattern name].
Proof.
  intros H. apply words_single.
  - unfold name_pattern. rewrite !blankfree_app, H. reflexivity.
  - reflexivity.
Qed.

Lemma app_dollar_inj (a b : string) : a ++ "$" = b ++ "$" -> a = b.
Proof.
  revert b. induction a as [|x a IH]; intros [|y b] H.
  - reflexivity.
  - injection H as _ H. destruct b; discriminate H.
  - injection H as _ H. destruct a; discriminate H.
  - injection H as -> H. f_equal. apply IH, H.
Qed.

Lemma eqb_app_dollar (a b : string) :
  String.eqb (a ++ "$") (b ++ "$") = String.eqb a b.
Proof.
  destruct (String.eqb_spec a b) as [->|N].
  - apply String.eqb_refl.
  - destruct (String.eqb_spec (a ++ "$") (b ++ "$")) as [E|_]; [|reflexivity].
    elim N. apply app_dollar_inj, E.
Qed.

Lemma name_filter_pattern (name : string) (c : Docker.container) :
  Docker.name_filter (name_pattern name) c = String.eqb (Docker.cname c) name.
Proof.
  unfold Docker.name_filter, name_pattern. simpl.
  rewrite eqb_app_dollar. apply String.eqb_sym.
Qed.

Lemma filter_name_pattern (name : string) (st : Docker.store) :
  filter (Docker.name_filter (name_pattern name)) (Docker.containers st)
  = Docker.named name st.
Proof.
  unfold Docker.named. apply filter_ext. intros c. apply name_filter_pattern.
Qed.

(** ** The engine's answers to the script's commands *)

Lemma words_list_command (opts : options) :
  Docker.words (list_command opts) =
  "docker" :: "container" :: "ls" :: "-qa" :: "-f" ::
  Docker.words (name_pattern (PROJECT_NAME opts)).
Proof.
  unfold list_command.
  change ("docker container ls -qa -f name=^/" ++ PROJECT_NAME opts ++ "$")
    with ("docker" ++ String " " ("container" ++ String " " ("ls" ++ String " "
           ("-qa" ++ String " " ("-f" ++ String " "
              (name_pattern (PROJECT_NAME opts))))))).
  rewrite !words_cons_word by reflexivity. reflexivity.
Qed.

Lemma words_ps_command (opts : options) :
  Docker.words (ps_command opts) =
  "docker" :: "ps" :: "-a" :: "-q" :: "-f" ::
  Docker.words (name_pattern (PROJECT_NAME opts)).
Proof.
  unfold ps_command.
  change ("docker ps -a -q -f name=^/" ++ PROJECT_NAME opts ++ "$")
    with ("docker" ++ String " " ("ps" ++ String " " ("-a" ++ String " "
           ("-q" ++ String " " ("-f" ++ String " "
              (name_pattern (PROJECT_NAME opts))))))).
  rewrite !words_cons_word by reflexivity. reflexivity.
Qed.

Lemma listing_named (name : string) (st : Docker.store) :
  Docker.listing (name_pattern name) st =
  (Stdout (String.concat EmptyString
             (map (fun c => Docker.line (Docker.show_id (Docker.cid c)))
                  (Docker.named name st))), st).
Proof. unfold Docker.listing. rewrite filter_name_pattern. reflexivity. Qed.

Lemma command_list (opts : options) (st : Docker.store) :
  blankfree (PROJECT_NAME opts) = true ->
  Docker.command (list_command opts) st
  = Docker.listing (name_pattern (PROJECT_NAME opts)) st.
Proof.
  intros H. unfold Docker.command.
  rewrite words_list_command, (words_name_pattern_valid _ H). reflexivity.
Qed.

(** The listing of [stop] prints nothing when no container bears the name,
    whatever the name is. *)
Lemma command_ps_absent (opts : options) (st : Docker.store) :
  Docker.named (PROJECT_NAME opts) st = [] ->
  Docker.command (ps_command opts) st = (Stdout EmptyString, st).
Proof.
  intros H. unfold Docker.command. rewrite words_ps_command.
  destruct (words_name_pattern (PROJECT_NAME opts)) as [E|(w1 & w2 & ws & E)];
    rewrite E.
  - change (Docker.listing (name_pattern (PROJECT_NAME opts)) st = (Stdout EmptyString, st)).
    rewrite listing_named, H. reflexivity.
  - reflexivity.
Qed.

Lemma words_rm_line (n : nat) :
  Docker.words ("docker container rm -f " ++ Docker.line (Docker.show_id n))
  = ["docker"; "container"; "rm"; "-f"; Docker.show_id n].
Proof.
  change ("docker container rm -f " ++ Docker.line (Docker.show_id n))
    with ("docker" ++ String " " ("container" ++ String " " ("rm" ++ String " "
           ("-f" ++ String " " (Docker.line (Docker.show_id n)))))).
  rewrite !words_cons_word by reflexivity.
  rewrite words_line by apply show_id_word. reflexivity.
Qed.

Lemma command_rm_line (n : nat) (st : Docker.store) :
  Docker.command ("docker container rm -f " ++ Docker.line (Docker.show_id n)) st
  = Docker.remove [Docker.show_id n] st.
Proof. unfold Docker.command. rewrite words_rm_line. reflexivity. Qed.

Lemma run_command_shape (opts : options) (version : string) (forceLatest : bool) :
  exists rest,
    run_command opts version forceLatest =
    "docker" ++ String " " ("run" ++ String " "
      (("--name=" ++ PROJECT_NAME opts) ++ String " " rest)).
Proof.
  unfold run_command. destruct (BYTE_SWAP opts); eexists; reflexivity.
Qed.

Lemma command_run (opts : options) (version : string) (forceLatest : bool)
  (st : Docker.store) :
  blankfree (PROJECT_NAME opts) = true ->
  Docker.command (run_command opts version forceLatest) st
  = Docker.create (PROJECT_NAME opts) st.
Proof.
  intros H. destruct (run_command_shape opts version forceLatest) as [rest ->].
  unfold Docker.command.
  rewrite !words_cons_word; try reflexivity.
  - change (Docker.docker ("run" :: ("--name=" ++ PROJECT_NAME opts) :: Docker.words rest) st
            = Docker.create (PROJECT_NAME opts) st).
    unfold Docker.docker.
    change (Docker.after ["run"] ("run" :: ("--name=" ++ PROJECT_NAME opts) :: Docker.words rest))
      with (Some (("--name=" ++ PROJECT_NAME opts) :: Docker.words rest)).
    cbn. destruct (PROJECT_NAME opts); reflexivity.
  - rewrite blankfree_app, H. reflexivity.
Qed.

(** ** The store under the engine's operations *)

Lemma filter_swap {A : Type} (f g : A -> bool) (l : list A) :
  filter f (filter g l) = filter g (filter f l).
Proof.
  induction l as [|x l IH]; simpl.
  - reflexivity.
  - destruct (f x) eqn:F; destruct (g x) eqn:G; simpl; rewrite ?F, ?G, IH; reflexivity.
Qed.

Lemma filter_length_le {A : Type} (f : A -> bool) (l : list A) :
  List.length (filter f l) <= List.length l.
Proof.
  induction l as [|x l IH]; simpl.
  - lia.
  - destruct (f x); simpl; lia.
Qed.

Lemma snd_remove (args : list string) (st : Docker.store) :
  snd (Docker.remove args st) =
  {| Docker.containers :=
       filter (fun c => negb (existsb (fun a => Docker.refers a c) args))
              (Docker.containers st);
     Docker.next_id := Docker.next_id st |}.
Proof. unfold Docker.remove. destruct (forallb _ args); reflexivity. Qed.

Lemma named_remove (name : string) (args : list string) (st : Docker.store) :
  Docker.named name (snd (Docker.remove args st)) =
  filter (fun c => negb (existsb (fun a => Docker.refers a c) args))
         (Docker.named name st).
Proof. rewrite snd_remove. unfold Docker.named. simpl. apply filter_swap. Qed.

Lemma named_absent (name : string) (st : Docker.store) :
  Docker.named name st = [] ->
  existsb (fun c => String.eqb (Docker.cname c) name) (Docker.containers st) = false.
Proof.
  unfold Docker.named. induction (Docker.containers st) as [|c l IH]; simpl.
  - reflexivity.
  - destruct (String.eqb (Docker.cname c) name); [discriminate | exact IH].
Qed.

Lemma absent_named (name : string) (st : Docker.store) :
  existsb (fun c => String.eqb (Docker.cname c) name) (Docker.containers st) = false ->
  Docker.named name st = [].
Proof.
  unfold Docker.named. induction (Docker.containers st) as [|c l IH]; simpl.
  - reflexivity.
  - destruct (String.eqb (Docker.cname c) name); [discriminate | exact IH].
Qed.

Lemma named_create_new (name : string) (st : Docker.store) :
  Docker.valid_name name = true ->
  Docker.named name st = [] ->
  Docker.create name st =
  (Stdout (Docker.line (Docker.show_id (Docker.next_id st))),
   {| Docker.containers :=
        Docker.containers st ++
        [{| Docker.cid := Docker.next_id st; Docker.cname := name;
            Docker.running := true |}];
      Docker.next_id := S (Docker.next_id st) |}) /\
  List.length (Docker.named name (snd (Docker.create name st))) = 1.
Proof.
  intros Hv Hn. unfold Docker.create.
  rewrite Hv, (named_absent name st Hn). simpl. split; [reflexivity|].
  unfold Docker.named in *. simpl. rewrite filter_app, Hn. simpl.
  rewrite String.eqb_refl. reflexivity.
Qed.

Lemma create_unique (name n : string) (st : Docker.store) :
  List.length (Docker.named n st) <= 1 ->
  List.length (Docker.named n (snd (Docker.create name st))) <= 1.
Proof.
  intros H. unfold Docker.create.
  destruct (negb (Docker.valid_name name)); [exact H|].
  destruct (existsb _ (Docker.containers st)) eqn:E; [exact H|].
  unfold Docker.named in *. simpl. rewrite filter_app, length_app. simpl.
  destruct (String.eqb_spec name n) as [->|N]; simpl; [|lia].
  pose proof (absent_named n st E) as Z. unfold Docker.named in Z.
  rewrite Z. simpl. lia.
Qed.

Lemma filter_map_length {A : Type} (p : A -> bool) (f : A -> A) (l : list A) :
  (forall x, p (f x) = p x) ->
  List.length (filter p (map f l)) = List.length (filter p l).
Proof.
  intros H. induction l as [|x l IH]; simpl.
  - reflexivity.
  - rewrite H. destruct (p x); simpl; rewrite IH; reflexivity.
Qed.

Lemma named_start (n arg : string) (st : Docker.store) :
  List.length (Docker.named n (snd (Docker.start arg st)))
  = List.length (Docker.named n st).
Proof.
  unfold Docker.start. destruct (existsb _ (Docker.containers st)); [|reflexivity].
  unfold Docker.named. simpl. apply filter_map_length.
  intros c. destruct (Docker.refers arg c); reflexivity.
Qed.

Lemma remove_unique (args : list string) (n : string) (st : Docker.store) :
  List.length (Docker.named n st) <= 1 ->
  List.length (Docker.named n (snd (Docker.remove args st))) <= 1.
Proof.
  intros H. rewrite named_remove.
  pose proof (filter_length_le
                (fun c => negb (existsb (fun a => Docker.refers a c) args))
                (Docker.named n st)).
  lia.
Qed.

Lemma exec_in_same (arg : string) (st : Docker.store) :
  snd (Docker.exec_in arg st) = st.
Proof. unfold Docker.exec_in. destruct (existsb _ _); reflexivity. Qed.

(** The engine keeps names unique: no command makes a second container of
    a name. *)
Lemma docker_unique (args : list string) (n : string) (st : Docker.store) :
  List.length (Docker.named n st) <= 1 ->
  List.length (Docker.named n (snd (Docker.docker args st))) <= 1.
Proof.
  intros H. unfold Docker.docker.
  repeat match goal with
         | |- context [match ?x with _ => _ end] => destruct x
         end;
    simpl snd;
    try exact H;
    try (apply remove_unique; exact H);
    try (apply create_unique; exact H);
    try (rewrite named_start; exact H);
    try (rewrite exec_in_same; exact H).
Qed.

Lemma command_unique (cmd n : string) (st : Docker.store) :
  List.length (Docker.named n st) <= 1 ->
  List.length (Docker.named n (snd (Docker.command cmd st))) <= 1.
Proof.
  intros H. unfold Docker.command.
  destruct (Docker.words cmd) as [|program args]; [exact H|].
  destruct (String.eqb program "docker"); [|exact H].
  apply docker_unique, H.
Qed.

Lemma run_unique {A : Type} (files : string -> bool) (p : prog A) (n : string) :
  forall st,
    List.length (Docker.named n st) <= 1 ->
    List.length (Docker.named n (final (run (Docker.host files) p st))) <= 1.
Proof.
  induction p as [a|e|cmd k IH|file k IH]; intros st H; simpl.
  - exact H.
  - exact H.
  - pose proof (command_unique cmd n st H) as H'.
    destruct (Docker.command cmd st) as [[out|code] st']; simpl in H'.
    + specialize (IH out st' H').
      destruct (run (Docker.host files) (k out) st') as [[r st''] t]. exact IH.
    + exact H'.
  - apply IH, H.
Qed.

(** ** Stopping and starting the container *)

Lemma run_stop {W : Type} (sys : system W) (w : W) (env : environment) (opts : options) :
  in_container env = false ->
  run sys (stop env opts) w =
  match sys_exec sys (ps_command opts) w with
  | (Failure code, w1) => (Rejected (ExecutionError code), w1, [ps_command opts])
  | (Stdout list, w1) =>
      if JS.truthy list then
        match sys_exec sys ("docker rm -f " ++ PROJECT_NAME opts) w1 with
        | (Failure code, w2) =>
            (Rejected (ExecutionError code), w2,
             [ps_command opts; "docker rm -f " ++ PROJECT_NAME opts])
        | (Stdout _, w2) =>
            (Resolved tt, w2, [ps_command opts; "docker rm -f " ++ PROJECT_NAME opts])
        end
      else (Resolved tt, w1, [ps_command opts])
  end.
Proof.
  intros Hc. unfold stop. rewrite Hc. simpl.
  destruct (sys_exec sys (ps_command opts) w) as [[list|code] w1]; [|reflexivity].
  destruct list as [|c list]; simpl; [reflexivity|].
  destruct (sys_exec sys _ w1) as [[out|code] w2]; reflexivity.
Qed.

Lemma run_startToolchain {W : Type} (sys : system W) (w : W)
  (env : environment) (opts : options) (version : string) (forceLatest : bool) :
  in_container env = false ->
  run sys (startToolchain env opts version forceLatest) w =
  match sys_exec sys (list_command opts) w with
  | (Failure code, w1) => (Rejected (ExecutionError code), w1, [list_command opts])
  | (Stdout containerID, w1) =>
      let create w2 t :=
        match sys_exec sys (run_command opts version forceLatest) w2 with
        | (Failure code, w3) =>
            (Rejected (ExecutionError code), w3,
             (list_command opts :: t ++ [run_command opts version forceLatest])%list)
        | (Stdout _, w3) =>
            (Resolved tt, w3,
             (list_command opts :: t ++ [run_command opts version forceLatest])%list)
        end in
      if JS.truthy containerID then
        match sys_exec sys ("docker container rm -f " ++ containerID) w1 with
        | (Failure code, w2) =>
            (Rejected (ExecutionError code), w2,
             [list_command opts; "docker container rm -f " ++ containerID])
        | (Stdout _, w2) => create w2 ["docker container rm -f " ++ containerID]
        end
      else create w1 []
  end.
Proof.
  intros Hc. unfold startToolchain. rewrite Hc. simpl.
  destruct (sys_exec sys (list_command opts) w) as [[list|code] w1]; [|reflexivity].
  destruct list as [|c list]; simpl.
  - destruct (sys_exec sys _ w1) as [[out|code] w2]; reflexivity.
  - destruct (sys_exec sys _ w1) as [[out|code] w2]; simpl; [|reflexivity].
    destruct (sys_exec sys _ w2) as [[out'|code] w3]; reflexivity.
Qed.

(** C6: in every state of the store in which no container bears the
    reserved name, [stop] succeeds, leaves the store as it is and issues no
    removal command. *)
Theorem stop_absent_noop (files : string -> bool) (env : environment)
  (opts : options) (st : Docker.store) :
  Docker.named (PROJECT_NAME opts) st = [] ->
  outcome (run (Docker.host files) (stop env opts) st) = Resolved tt /\
  final (run (Docker.host files) (stop env opts) st) = st /\
  existsb is_removal (trace (run (Docker.host files) (stop env opts) st)) = false.
Proof.
  intros H. destruct (in_container env) eqn:Hc.
  - unfold stop. rewrite Hc. repeat split.
  - rewrite (run_stop _ _ _ _ Hc).
    change (sys_exec (Docker.host files) (ps_command opts) st)
      with (Docker.command (ps_command opts) st).
    rewrite (command_ps_absent opts st H). repeat split.
Qed.

Lemma stop_absent_noop_witness :
  Docker.named (PROJECT_NAME sample_options) other_container = [] /\
  outcome (run Docker.engine (stop sample_env sample_options) other_container)
  = Resolved tt /\
  final (run Docker.engine (stop sample_env sample_options) other_container)
  = other_container /\
  existsb is_removal
    (trace (run Docker.engine (stop sample_env sample_options) other_container))
  = false.
Proof.
  split; [reflexivity|].
  apply (stop_absent_noop (fun _ => false) sample_env sample_options other_container).
  reflexivity.
Defined.

Lemma in_named (name : string) (c : Docker.container) (st : Docker.store) :
  In c (Docker.named name st) ->
  In c (Docker.containers st) /\ Docker.cname c = name.
Proof.
  unfold Docker.named. intros H. apply filter_In in H. destruct H as [H E].
  split; [exact H | apply String.eqb_eq, E].
Qed.

Lemma refers_own_id (c : Docker.container) :
  Docker.refers (Docker.show_id (Docker.cid c)) c = true.
Proof. unfold Docker.refers. rewrite String.eqb_refl. reflexivity. Qed.

(** Started once from a store with at most one container of the name, the
    toolchain resolves and exactly one container bears the name. *)
Lemma start_once (files : string -> bool) (env : environment) (opts : options)
  (version : string) (forceLatest : bool) (st : Docker.store) :
  in_container env = false ->
  Docker.valid_name (PROJECT_NAME opts) = true ->
  List.length (Docker.named (PROJECT_NAME opts) st) <= 1 ->
  outcome (run (Docker.host files) (startToolchain env opts version forceLatest) st)
  = Resolved tt /\
  List.length
    (Docker.named (PROJECT_NAME opts)
       (final (run (Docker.host files) (startToolchain env opts version forceLatest) st)))
  = 1.
Proof.
  intros Hc Hv Hu.
  destruct (valid_name_blankfree _ Hv) as [Hb _].
  rewrite (run_startToolchain _ _ _ _ _ _ Hc).
  change (sys_exec (Docker.host files)) with Docker.command.
  rewrite (command_list opts st Hb), listing_named.
  destruct (Docker.named (PROJECT_NAME opts) st) as [|c [|c' l]] eqn:E;
    [| |simpl in Hu; lia].
  - simpl. rewrite (command_run opts version forceLatest st Hb).
    destruct (named_create_new _ st Hv E) as [Hcr Hlen].
    rewrite Hcr in *. split; [reflexivity | exact Hlen].
  - cbn [map String.concat JS.truthy]. rewrite truthy_line.
    rewrite command_rm_line.
    assert (Hin : In c (Docker.named (PROJECT_NAME opts) st))
      by (rewrite E; left; reflexivity).
    apply in_named in Hin. destruct Hin as [Hin _].
    assert (Hgone : Docker.named (PROJECT_NAME opts)
                      (snd (Docker.remove [Docker.show_id (Docker.cid c)] st)) = []).
    { rewrite named_remove, E. simpl. rewrite refers_own_id. reflexivity. }
    assert (Hok : exists out,
               Docker.remove [Docker.show_id (Docker.cid c)] st =
               (Stdout out, snd (Docker.remove [Docker.show_id (Docker.cid c)] st))).
    { unfold Docker.remove. simpl.
      assert (X : existsb (Docker.refers (Docker.show_id (Docker.cid c)))
                    (Docker.containers st) = true).
      { apply existsb_exists. exists c. split; [exact Hin | apply refers_own_id]. }
      rewrite X. simpl. eexists. reflexivity. }
    destruct Hok as [out Hok]. rewrite Hok.
    cbv zeta. rewrite (command_run opts version forceLatest _ Hb).
    destruct (named_create_new _ _ Hv Hgone) as [Hcr Hlen].
    rewrite Hcr in *. split; [reflexivity | exact Hlen].
Qed.

(** C2, as amended: when the project name is a name the engine accepts for
    a container, [startToolchain] run twice in succession outside a
    container, on any store that holds at most one container of that name,
    resolves both times and leaves exactly one container bearing it; and
    whatever action is run, a store with at most one container of a name
    still has at most one afterwards. *)
Theorem start_twice_one_container (files : string -> bool) (env : environment)
  (opts : options) (version : string) (first second : bool) (st : Docker.store) :
  in_container env = false ->
  Docker.valid_name (PROJECT_NAME opts) = true ->
  List.length (Docker.named (PROJECT_NAME opts) st) <= 1 ->
  let once := run (Docker.host files) (startToolchain env opts version first) st in
  let twice :=
    run (Docker.host files) (startToolchain env opts version second) (final once) in
  outcome once = Resolved tt /\
  outcome twice = Resolved tt /\
  List.length (Docker.named (PROJECT_NAME opts) (final twice)) = 1 /\
  forall (pm : Path.module) (dependencies devDependencies : list string)
         (a : action) (param : string) (st' : Docker.store),
    List.length (Docker.named (PROJECT_NAME opts) st') <= 1 ->
    List.length
      (Docker.named (PROJECT_NAME opts)
         (final (run (Docker.host files)
                   (perform env opts version pm dependencies devDependencies a param)
                   st'))) <= 1.
Proof.
  intros Hc Hv Hu once twice.
  destruct (start_once files env opts version first st Hc Hv Hu) as [R1 L1].
  fold once in R1, L1.
  assert (Hu' : List.length (Docker.named (PROJECT_NAME opts) (final once)) <= 1) by lia.
  destruct (start_once files env opts version second (final once) Hc Hv Hu') as [R2 L2].
  fold twice in R2, L2.
  repeat split; try assumption.
  intros pm deps devDeps a param st' H. apply run_unique, H.
Qed.

Lemma start_twice_one_container_witness :
  in_container sample_env = false /\
  Docker.valid_name (PROJECT_NAME sample_options) = true /\
  List.length (Docker.named (PROJECT_NAME sample_options) two_containers) <= 1 /\
  List.length
    (Docker.named (PROJECT_NAME sample_options)
       (final (run Docker.engine (startToolchain sample_env sample_options "1.0.0" false)
                 (final (run Docker.engine
                           (startToolchain sample_env sample_options "1.0.0" false)
                           two_containers))))) = 1.
Proof.
  split; [reflexivity|]. split; [reflexivity|]. split; [simpl; lia|].
  apply (start_twice_one_container (fun _ => false) sample_env sample_options "1.0.0"
           false false two_containers); [reflexivity | reflexivity | simpl; lia].
Defined.

(** The name of a scoped package is refused by the engine: both starts
    reject and no container bears the name. *)
Lemma scoped_name_starts_nothing :
  in_container scoped_env = false /\
  outcome (run Docker.engine (startToolchain scoped_env scoped_options "1.0.0" false)
             empty_store)
  = Rejected (ExecutionError 125) /\
  Docker.named (PROJECT_NAME scoped_options)
    (final (run Docker.engine (startToolchain scoped_env scoped_options "1.0.0" false)
              (final (run Docker.engine
                        (startToolchain scoped_env scoped_options "1.0.0" false)
                        empty_store))))
  = [] /\
  ~ two_starts_leave_one scoped_env scoped_options "1.0.0" empty_store.
Proof.
  split; [reflexivity|]. split; [reflexivity|]. split; [reflexivity|].
  unfold two_starts_leave_one. discriminate.
Qed.

(** ** Proxying make *)

Lemma run_make {W : Type} (sys : system W) (w : W) (env : environment)
  (opts : options) (param : string) :
  in_container env = false ->
  run sys (make env opts param) w =
  match sys_exec sys (start_command opts) w with
  | (Failure code, w1) => (Rejected (ExecutionError code), w1, [start_command opts])
  | (Stdout _, w1) =>
      match sys_exec sys (exec_make_command opts param) w1 with
      | (Failure code, w2) =>
          (Rejected (ExecutionError code), w2,
           [start_command opts; exec_make_command opts param])
      | (Stdout _, w2) =>
          (Resolved tt, w2, [start_command opts; exec_make_command opts param])
      end
  end.
Proof.
  intros Hc. unfold make. rewrite Hc.
  fold (start_command opts). fold (exec_make_command opts param).
  rewrite run_bind, run_runCommand.
  destruct (sys_exec sys (start_command opts) w) as [[out|code] w1]; [|reflexivity].
  rewrite run_bind, run_runCommand.
  destruct (sys_exec sys (exec_make_command opts param) w1) as [[out'|code] w2];
    reflexivity.
Qed.

Lemma command_start (opts : options) (st : Docker.store) :
  Docker.valid_name (PROJECT_NAME opts) = true ->
  Docker.command (start_command opts) st = Docker.start (PROJECT_NAME opts) st.
Proof.
  intros Hv. destruct (valid_name_blankfree _ Hv) as [Hb Ht].
  unfold Docker.command, start_command.
  change ("docker start " ++ PROJECT_NAME opts)
    with ("docker" ++ String " " ("start" ++ String " " (PROJECT_NAME opts))).
  rewrite !words_cons_word by reflexivity.
  rewrite (words_single _ Hb Ht). reflexivity.
Qed.

Lemma command_exec_make (opts : options) (param : string) (st : Docker.store) :
  Docker.valid_name (PROJECT_NAME opts) = true ->
  Docker.command (exec_make_command opts param) st
  = Docker.exec_in (PROJECT_NAME opts) st.
Proof.
  intros Hv. destruct (valid_name_blankfree _ Hv) as [Hb Ht].
  unfold Docker.command, exec_make_command.
  change ("docker exec " ++ PROJECT_NAME opts ++ " make " ++ param)
    with ("docker" ++ String " " ("exec" ++ String " "
           (PROJECT_NAME opts ++ String " " ("make" ++ String " " param)))).
  rewrite !words_cons_word by (reflexivity || assumption). reflexivity.
Qed.

Lemma refers_name (c : Docker.container) : Docker.refers (Docker.cname c) c = true.
Proof. unfold Docker.refers. rewrite String.eqb_refl. apply orb_true_r. Qed.

(** After [docker start N], every container named [N] runs. *)
Lemma start_runs (name : string) (st : Docker.store) (c : Docker.container) :
  In c (Docker.named name (snd (Docker.start name st))) -> Docker.running c = true.
Proof.
  unfold Docker.start.
  destruct (existsb (Docker.refers name) (Docker.containers st)) eqn:E.
  - intros H. apply in_named in H. destruct H as [H Hn]. simpl in H.
    apply in_map_iff in H. destruct H as (c0 & Hc0 & _).
    destruct (Docker.refers name c0) eqn:R.
    + subst c. reflexivity.
    + subst c0. rewrite <- Hn, refers_name in R. discriminate R.
  - intros H. apply in_named in H. destruct H as [H Hn].
    assert (X : existsb (Docker.refers name) (Docker.containers st) = true).
    { apply existsb_exists. exists c. split; [exact H|]. rewrite <- Hn. apply refers_name. }
    rewrite X in E. discriminate E.
Qed.

Lemma start_present (name : string) (st : Docker.store) :
  Docker.named name st <> [] ->
  exists out, Docker.start name st = (Stdout out, snd (Docker.start name st)) /\
              existsb (fun c => Docker.refers name c && Docker.running c)
                      (Docker.containers (snd (Docker.start name st))) = true.
Proof.
  intros H. destruct (Docker.named name st) as [|c l] eqn:E; [contradiction|].
  assert (Hin : In c (Docker.named name st)) by (rewrite E; left; reflexivity).
  apply in_named in Hin. destruct Hin as [Hin Hn].
  assert (X : existsb (Docker.refers name) (Docker.containers st) = true).
  { apply existsb_exists. exists c. split; [exact Hin|]. rewrite <- Hn. apply refers_name. }
  unfold Docker.start. rewrite X. simpl. eexists. split; [reflexivity|].
  apply existsb_exists.
  exists {| Docker.cid := Docker.cid c; Docker.cname := Docker.cname c;
            Docker.running := true |}.
  split.
  - apply in_map_iff. exists c. split; [|exact Hin].
    rewrite <- Hn, refers_name. reflexivity.
  - rewrite <- Hn. unfold Docker.refers. simpl. rewrite String.eqb_refl, orb_true_r.
    reflexivity.
Qed.

(** C9: outside a container, [make] issues [docker start] of the
    reserved-name container first and [docker exec ... make] with the
    parameter only once that start has succeeded; so on a store that holds
    the named container, be it stopped, the start resolves, the second
    command is an exec that finds the container running, and make
    resolves. *)
Theorem make_starts_container (env : environment) (opts : options) (param : string) :
  in_container env = false ->
  (forall (W : Type) (sys : system W) (w : W),
     trace (run sys (make env opts param) w) =
     match sys_exec sys ("docker start " ++ PROJECT_NAME opts) w with
     | (Stdout _, _) =>
         ["docker start " ++ PROJECT_NAME opts;
          "docker exec " ++ PROJECT_NAME opts ++ " make " ++ param]
     | (Failure _, _) => ["docker start " ++ PROJECT_NAME opts]
     end) /\
  (forall (files : string -> bool) (st : Docker.store),
     Docker.valid_name (PROJECT_NAME opts) = true ->
     Docker.named (PROJECT_NAME opts) st <> [] ->
     run (Docker.host files) (make env opts param) st =
     (Resolved tt, snd (Docker.start (PROJECT_NAME opts) st),
      ["docker start " ++ PROJECT_NAME opts;
       "docker exec " ++ PROJECT_NAME opts ++ " make " ++ param]) /\
     Docker.command ("docker exec " ++ PROJECT_NAME opts ++ " make " ++ param)
       (snd (Docker.start (PROJECT_NAME opts) st))
     = Docker.exec_in (PROJECT_NAME opts) (snd (Docker.start (PROJECT_NAME opts) st)) /\
     forall c,
       In c (Docker.named (PROJECT_NAME opts) (snd (Docker.start (PROJECT_NAME opts) st))) ->
       Docker.running c = true).
Proof.
  intros Hc. split.
  - intros W sys w. rewrite (run_make _ _ _ _ _ Hc).
    change ("docker start " ++ PROJECT_NAME opts) with (start_command opts).
    destruct (sys_exec sys (start_command opts) w) as [[out|code] w1]; [|reflexivity].
    destruct (sys_exec sys (exec_make_command opts param) w1) as [[out'|code] w2];
      reflexivity.
  - intros files st Hv Hn.
    split; [|split; [apply (command_exec_make opts param _ Hv) | apply start_runs]].
    rewrite (run_make _ _ _ _ _ Hc).
    change (sys_exec (Docker.host files)) with Docker.command.
    rewrite (command_start opts st Hv).
    destruct (start_present _ st Hn) as (out & Hst & Hrun).
    destruct (Docker.start (PROJECT_NAME opts) st) as [r st1].
    simpl in Hst, Hrun |- *. injection Hst as ->.
    rewrite (command_exec_make opts param _ Hv).
    unfold Docker.exec_in. rewrite Hrun. reflexivity.
Qed.

Lemma make_starts_container_witness :
  in_container sample_env = false /\
  Docker.valid_name (PROJECT_NAME sample_options) = true /\
  Docker.named (PROJECT_NAME sample_options) two_containers <> [] /\
  run Docker.engine (make sample_env sample_options "-C ./libdragon-source") two_containers =
  (Resolved tt,
   {| Docker.containers :=
        [{| Docker.cid := 12; Docker.cname := "game"; Docker.running := true |};
         {| Docker.cid := 3; Docker.cname := "other"; Docker.running := true |}];
      Docker.next_id := 13 |},
   ["docker start game"; "docker exec game make -C ./libdragon-source"]).
Proof.
  split; [reflexivity|]. split; [reflexivity|]. split; [discriminate|].
  destruct (make_starts_container sample_env sample_options "-C ./libdragon-source"
              eq_refl) as [_ H].
  destruct (H (fun _ => false) two_containers eq_refl) as [R _].
  - discriminate.
  - exact R.
Defined.

(** On the sample store the named container is stopped: an exec without the
    start before it fails. *)
Example exec_needs_running :
  fst (Docker.command (exec_make_command sample_options "all") two_containers)
  = Failure 1.
Proof. reflexivity. Qed.

(** ** Installing the dependencies *)



Lemma install_dependency_cases (env : environment) (opts : options)
  (pm : Path.module) (d : dependency) :
  (1 < List.length (dep_paths d) /\
   install_dependency env opts pm d = Settled (Rejected ambiguous)) \/
  (dep_paths d = [] /\
   install_dependency env opts pm d = Settled (Rejected TypeError)) \/
  (List.length (dep_paths d) = 1 /\
   exists q, install_dependency env opts pm d = Pending q /\
             never_throws ambiguous q).
Proof.
  unfold install_dependency.
  destruct (Nat.ltb_spec 1 (List.length (dep_paths d))) as [L|L].
  - left. split; [exact L | reflexivity].
  - right. destruct (dep_paths d) as [|path0 [|path1 l]] eqn:E.
    + left. split; reflexivity.
    + right. split; [reflexivity|]. eexists. split; [reflexivity|].
      apply nt_access. intros [|].
      * apply nt_exec. intros out. apply nt_ret.
      * apply nt_ret.
    + simpl in L. lia.
Qed.






Lemma in_uniq (x : string) (l : list string) : In x l -> In x (JS.uniq l).
Proof.
  induction l as [|a l IH]; simpl; intros H.
  - exact H.
  - destruct (String.eqb_spec a x) as [E|N].
    + left. exact E.
    + right. apply filter_In. split.
      * destruct H as [H|H]; [contradiction | apply IH, H].
      * destruct (String.eqb_spec a x); [contradiction | reflexivity].
Qed.

Lemma two_distinct_length (x y : string) (l : list string) :
  In x l -> In y l -> x <> y -> 1 < List.length l.
Proof.
  intros Hx Hy N. destruct l as [|a [|b l]]; simpl in *.
  - destruct Hx.
  - destruct Hx as [<-|[]]. destruct Hy as [<-|[]]. contradiction.
  - lia.
Qed.

(** Two distinct lines in the output of npm make more than one path; the
    same line printed twice makes one. *)
Lemma distinct_paths_ambiguous (out x y : string) :
  In x (JS.fields (Ascii.eqb newline) out) ->
  In y (JS.fields (Ascii.eqb newline) out) ->
  x <> EmptyString -> y <> EmptyString -> x <> y ->
  1 < List.length (JS.uniq (filter JS.truthy (JS.fields (Ascii.eqb newline) out))).
Proof.
  intros Hx Hy Nx Ny N.
  apply (two_distinct_length x y); [| |exact N];
    apply in_uniq, filter_In; split; try assumption; apply truthy_true; assumption.
Qed.

Example same_path_twice :
  JS.uniq (filter JS.truthy
             (JS.fields (Ascii.eqb newline)
                ("/p/node_modules/a" ++ String newline ("/p/node_modules/a" ++ String newline EmptyString))))
  = ["/p/node_modules/a"].
Proof. reflexivity. Qed.




(** ** The mount path flag *)

Lemma split_go_absent (sep s : string) :
  JS.includes sep s = false -> JS.split_go sep 0 s = (s, []).
Proof.
  induction s as [|c s IH]; intros H.
  - reflexivity.
  - cbn [JS.includes] in H. apply orb_false_iff in H. destruct H as [Hp Hs].
    cbn [JS.split_go]. rewrite Hp, (IH Hs). reflexivity.
Qed.

Lemma split_mount_path (value : string) :
  JS.includes "--mount-path=" value = false ->
  JS.split "--mount-path=" ("--mount-path=" ++ value) = [EmptyString; value].
Proof.
  intros H. unfold JS.split.
  assert (E : JS.split_go "--mount-path=" 0 ("--mount-path=" ++ value)
              = (EmptyString, [value])).
  { cbn. destruct value as [|c v].
    - reflexivity.
    - change (String.prefix EmptyString (String c v)) with true. cbv iota.
      rewrite (split_go_absent _ _ H). reflexivity. }
  rewrite E. reflexivity.
Qed.

Lemma mount_path_flag (value : string) :
  String.prefix "--mount-path=" ("--mount-path=" ++ value) = true.
Proof. simpl. destruct value; reflexivity. Qed.

Lemma visit_mount_path (pm : Path.module) (cwd : string) (argv : list string)
  (index : nat) (value : string) (d : dispatcher) :
  1 <= index ->
  JS.includes "--mount-path=" value = false ->
  visit pm cwd argv index ("--mount-path=" ++ value) d =
  (Going,
   {| d_options := set_mount_path (d_options d) (Path.join pm [cwd; value]);
      d_stdout := d_stdout d;
      d_started := d_started d |}).
Proof.
  intros Hi Hv. unfold visit.
  destruct (Nat.ltb_spec index 1) as [L|_]; [lia|].
  rewrite mount_path_flag, (split_mount_path value Hv). reflexivity.
Qed.

(** C8, as amended: for every value P of the flag (P not holding the text
    of the flag once more), the mount path becomes path.join of the working
    directory and P, for a relative and an absolute P alike; on a POSIX host
    this is the normalised cwd/P, which for a relative P is P resolved
    against the working directory. *)
Theorem mount_path_joined (pm : Path.module) (cwd : string) (argv : list string)
  (index : nat) (value : string) (d : dispatcher) :
  1 <= index ->
  JS.includes "--mount-path=" value = false ->
  MOUNT_PATH (d_options (snd (visit pm cwd argv index ("--mount-path=" ++ value) d)))
  = Path.join pm [cwd; value] /\
  (JS.truthy cwd = true -> JS.truthy value = true ->
   Path.join (Path.posix cwd) [cwd; value] = Path.posix_normalize (cwd ++ "/" ++ value)) /\
  (JS.truthy cwd = true -> JS.truthy value = true ->
   Path.posix_is_absolute value = false ->
   Path.join (Path.posix cwd) [cwd; value] = mount_path_described cwd value).
Proof.
  intros Hi Hv. rewrite (visit_mount_path pm cwd argv index value d Hi Hv).
  split; [reflexivity|].
  assert (J : JS.truthy cwd = true -> JS.truthy value = true ->
              Path.join (Path.posix cwd) [cwd; value]
              = Path.posix_normalize (cwd ++ "/" ++ value)).
  { intros Hc Ht. simpl. unfold Path.posix_join. simpl. rewrite Hc, Ht. reflexivity. }
  split; [exact J|].
  intros Hc Ht Hrel. unfold mount_path_described. rewrite Hrel. apply J; assumption.
Qed.

Lemma mount_path_joined_witness :
  1 <= 2 /\
  JS.includes "--mount-path=" "../n64" = false /\
  MOUNT_PATH
    (d_options
       (snd (visit (Path.posix "/home/u/game") "/home/u/game"
               ["node"; "index.js"; "--mount-path=../n64"] 2
               ("--mount-path=" ++ "../n64")
               {| d_options := sample_options; d_stdout := []; d_started := [] |})))
  = Path.join (Path.posix "/home/u/game") ["/home/u/game"; "../n64"].
Proof.
  split; [lia|]. split; [reflexivity|].
  destruct (mount_path_joined (Path.posix "/home/u/game") "/home/u/game"
              ["node"; "index.js"; "--mount-path=../n64"] 2 "../n64"
              {| d_options := sample_options; d_stdout := []; d_started := [] |}
              (le_S 1 1 (le_n 1)) eq_refl) as [H _].
  exact H.
Defined.

(** An absolute value is not taken as it is: it ends up beneath the working
    directory. *)
Lemma absolute_mount_path_rerooted :
  Path.posix_is_absolute "/opt/n64" = true /\
  mount_path_after "/home/u/game" "/opt/n64" = "/home/u/game/opt/n64" /\
  mount_path_after "/home/u/game" "/opt/n64"
  <> mount_path_described "/home/u/game" "/opt/n64".
Proof. repeat split. discriminate. Qed.

(** ** The argument loop *)

Lemma prefix_split (a s : string) :
  String.prefix a s = true -> exists r, s = a ++ r.
Proof.
  revert s. induction a as [|c a IH]; intros s H.
  - exists s. reflexivity.
  - destruct s as [|c' s]; simpl in H; [discriminate|].
    destruct (ascii_dec c c') as [<-|_]; [|discriminate].
    destruct (IH s H) as [r ->]. exists r. reflexivity.
Qed.

Lemma split_mount_some (val : string) :
  String.prefix "--mount-path=" val = true ->
  exists p, nth_error (JS.split "--mount-path=" val) 1 = Some p.
Proof.
  intros H. destruct (prefix_split _ _ H) as [r ->].
  unfold JS.split. cbn. destruct r as [|c r].
  - exists EmptyString. reflexivity.
  - change (String.prefix EmptyString (String c r)) with true. cbv iota.
    destruct (JS.split_go "--mount-path=" 0 (String c r)) as [p ps].
    exists p. reflexivity.
Qed.

Lemma lookup_own (val : string) (a : action) :
  lookup val = Own a <-> assoc val availableActions = Some a.
Proof.
  unfold lookup. destruct (assoc val availableActions) as [a'|].
  - split; intros [= ->]; reflexivity.
  - destruct (existsb _ _); split; discriminate.
Qed.

Lemma lookup_not_function (val : string) :
  lookup val = NotAFunction -> assoc val availableActions = None.
Proof.
  unfold lookup. destruct (assoc val availableActions) as [a'|]; [discriminate|].
  reflexivity.
Qed.

(** One round of the loop: [--help] ends the process, anything else lets
    the loop go on, having called the action the argument names, if any. *)
Lemma visit_spec (pm : Path.module) (cwd : string) (argv : list string)
  (index : nat) (val : string) (d : dispatcher) :
  1 <= index ->
  nth_error argv index = Some val ->
  lookup val <> Inherited ->
  if String.eqb val "--help"
  then fst (visit pm cwd argv index val d) = Exited 0 /\
       d_started (snd (visit pm cwd argv index val d)) = d_started d
  else fst (visit pm cwd argv index val d) = Going /\
       d_started (snd (visit pm cwd argv index val d))
       = (d_started d ++ invocation argv index)%list.
Proof.
  intros Hi Hval Hl. unfold visit, invocation. rewrite Hval.
  destruct (Nat.ltb_spec index 1) as [L|_]; [lia|].
  destruct (String.prefix "--mount-path=" val) eqn:Hm.
  - destruct (split_mount_some val Hm) as [p ->].
    destruct (prefix_split _ _ Hm) as [r ->]. simpl.
    rewrite app_nil_r. split; reflexivity.
  - destruct (String.eqb_spec val "--byte-swap") as [->|Hb].
    + simpl. rewrite app_nil_r. split; reflexivity.
    + destruct (String.eqb_spec val "--help") as [->|Hh].
      * split; reflexivity.
      * destruct (lookup val) eqn:L.
        -- apply lookup_own in L. rewrite L. simpl.
           rewrite Nat.add_1_r. split; reflexivity.
        -- contradiction.
        -- rewrite (lookup_not_function val L). simpl.
           rewrite app_nil_r. split; reflexivity.
Qed.

Lemma forEach_spec (pm : Path.module) (cwd : string) (argv : list string) :
  forall (vals : list string) (index : nat) (d : dispatcher),
    1 <= index ->
    (forall j, nth_error vals j = nth_error argv (index + j)) ->
    (forall v, In v (before_help vals) -> lookup v <> Inherited) ->
    fst (forEach pm cwd argv index vals d)
    = (if has_help vals then Exited 0 else Going) /\
    d_started (snd (forEach pm cwd argv index vals d))
    = (d_started d ++ invocations argv index (List.length (before_help vals)))%list.
Proof.
  induction vals as [|val rest IH]; intros index d Hi Hal Hin.
  - simpl. rewrite app_nil_r. split; reflexivity.
  - assert (Hval : nth_error argv index = Some val).
    { rewrite <- (Nat.add_0_r index), <- Hal. reflexivity. }
    assert (Hrest : forall j, nth_error rest j = nth_error argv (S index + j)).
    { intros j. specialize (Hal (S j)). simpl in Hal. rewrite Hal. f_equal. lia. }
    cbn [forEach before_help has_help existsb].
    destruct (String.eqb val "--help") eqn:Hh.
    + assert (Hv : lookup val <> Inherited).
      { apply String.eqb_eq in Hh. subst val. discriminate. }
      pose proof (visit_spec pm cwd argv index val d Hi Hval Hv) as V.
      rewrite Hh in V. destruct V as [V1 V2].
      destruct (visit pm cwd argv index val d) as [s d']. simpl in V1, V2. subst s.
      simpl. rewrite V2, app_nil_r. split; reflexivity.
    + cbn [before_help] in Hin. rewrite Hh in Hin.
      assert (Hv : lookup val <> Inherited) by (apply Hin; left; reflexivity).
      pose proof (visit_spec pm cwd argv index val d Hi Hval Hv) as V.
      rewrite Hh in V. destruct V as [V1 V2].
      destruct (visit pm cwd argv index val d) as [s d']. simpl in V1, V2. subst s.
      destruct (IH (S index) d' ltac:(lia) Hrest
                  (fun v Hv' => Hin v (or_intror Hv'))) as [I1 I2].
      split; [exact I1|].
      rewrite I2, V2. unfold invocations. simpl. rewrite app_assoc. reflexivity.
Qed.

Lemma before_help_all (vals : list string) :
  has_help vals = false -> before_help vals = vals.
Proof.
  induction vals as [|val rest IH]; simpl; intros H.
  - reflexivity.
  - apply orb_false_iff in H. destruct H as [Hv Hr].
    rewrite Hv, (IH Hr). reflexivity.
Qed.

(** C10, as amended: the loop passes the argument at index 0 and examines
    the arguments from index 1 on, the script's path included, up to the
    first [--help], where the process exits; every examined argument that
    is an action name is called with the blank-joined arguments after its
    own position, so two verbs start two actions.  (Names of functions
    inherited from Object.prototype are left aside.) *)
Theorem dispatch_until_help (env : environment) (pm : Path.module) (cwd : string)
  (argv : list string) :
  (forall v, In v (before_help (tl argv)) -> lookup v <> Inherited) ->
  fst (main env pm cwd argv) = (if has_help (tl argv) then Exited 0 else Going) /\
  started env pm cwd argv
  = invocations argv 1 (List.length (before_help (tl argv))) /\
  (has_help (tl argv) = false -> dispatches_every_argument env pm cwd argv).
Proof.
  intros Hin.
  assert (M : fst (main env pm cwd argv)
              = (if has_help (tl argv) then Exited 0 else Going) /\
              started env pm cwd argv
              = invocations argv 1 (List.length (before_help (tl argv)))).
  { unfold started, main.
    set (d0 := {| d_options := default_options env cwd; d_stdout := [];
                  d_started := [] |}).
    destruct argv as [|v0 rest].
    - split; reflexivity.
    - change (forEach pm cwd (v0 :: rest) 0 (v0 :: rest) d0)
        with (forEach pm cwd (v0 :: rest) 1 rest d0).
      destruct (forEach_spec pm cwd (v0 :: rest) rest 1 d0 (le_n 1)
                  (fun j => eq_refl) Hin) as [F1 F2].
      split; [exact F1 | exact F2]. }
  destruct M as [M1 M2]. split; [exact M1|]. split; [exact M2|].
  intros Hh. unfold dispatches_every_argument. rewrite M2.
  rewrite (before_help_all _ Hh). destruct argv as [|v0 rest]; simpl.
  - reflexivity.
  - rewrite Nat.sub_0_r. reflexivity.
Qed.

Lemma dispatch_until_help_witness :
  started sample_env (Path.posix "/home/u/game") "/home/u/game"
    ["node"; "/home/u/game/node_modules/libdragon/index.js"; "make"; "-C"; "stop"]
  = [(Make, "-C stop"); (Stop, EmptyString)].
Proof.
  destruct (dispatch_until_help sample_env (Path.posix "/home/u/game") "/home/u/game"
              ["node"; "/home/u/game/node_modules/libdragon/index.js"; "make"; "-C"; "stop"])
    as (_ & H & _).
  - intros v Hv. simpl in Hv.
    destruct Hv as [<-|[<-|[<-|[<-|[]]]]]; discriminate.
  - exact H.
Defined.

(** A verb after [--help] is never reached. *)
Lemma help_cuts_dispatch :
  ~ dispatches_every_argument sample_env (Path.posix "/home/u/game") "/home/u/game"
      ["node"; "/home/u/game/node_modules/libdragon/index.js"; "--help"; "start"].
Proof. unfold dispatches_every_argument. discriminate. Qed.

(** The name of an inherited function ends the loop with a type error. *)
Example inherited_name_throws :
  main sample_env (Path.posix "/home/u/game") "/home/u/game"
    ["node"; "/home/u/game/node_modules/libdragon/index.js"; "toString"; "start"]
  = (Uncaught TypeError,
     {| d_options := sample_options; d_stdout := []; d_started := [] |}).
Proof. reflexivity. Qed.

(** ** Path translation *)

(** C1, on a Windows host: for a dependency two directories below the mount
    path, only the first backslash of the relative path becomes a slash; the
    container path keeps a backslash, where the translation with every
    separator replaced has none. *)
Theorem windows_path_keeps_backslash :
  containerPath (Path.win32 "C:\game") windows_options "C:\game\node_modules\@n64\mikmod"
  = "/game/node_modules/@n64\mikmod/" /\
  containerPath_global (Path.win32 "C:\game") windows_options
    "C:\game\node_modules\@n64\mikmod"
  = "/game/node_modules/@n64/mikmod/".
Proof. split; reflexivity. Qed.

(** One directory below the mount path there is one separator, and the
    translation is right on Windows too. *)
Example windows_path_one_level :
  containerPath (Path.win32 "C:\game") windows_options "C:\game\mikmod"
  = "/game/mikmod/".
Proof. reflexivity. Qed.

(** Only the first separator is replaced: what follows it is left as it
    is, separators included. *)
Lemma replace_first_only_first (c : ascii) (r a b : string) :
  Docker.forall_chars (fun x => negb (Ascii.eqb x c)) a = true ->
  JS.replace_first c r (a ++ String c b) = a ++ r ++ b.
Proof.
  induction a as [|x a IH]; simpl; intros H.
  - rewrite Ascii.eqb_refl. reflexivity.
  - apply andb_prop in H. destruct H as [Hx Ha].
    apply negb_true_iff in Hx. rewrite Hx, (IH Ha). reflexivity.
Qed.

Lemma replace_first_same (c : ascii) (s : string) :
  JS.replace_first c (String c EmptyString) s = s.
Proof.
  induction s as [|x s IH]; simpl.
  - reflexivity.
  - destruct (Ascii.eqb_spec x c) as [->|_]; [reflexivity | rewrite IH; reflexivity].
Qed.

Lemma replace_all_same (c : ascii) (s : string) :
  JS.replace_all c (String c EmptyString) s = s.
Proof.
  induction s as [|x s IH]; simpl.
  - reflexivity.
  - destruct (Ascii.eqb_spec x c) as [->|_]; rewrite IH; reflexivity.
Qed.

(** On a POSIX host the separator is the slash already, and replacing the
    first or every one changes nothing. *)
Lemma posix_containerPath_global (cwd : string) (opts : options) (hostPath : string) :
  containerPath (Path.posix cwd) opts hostPath
  = containerPath_global (Path.posix cwd) opts hostPath.
Proof.
  unfold containerPath, containerPath_global, relativePath. simpl Path.sep.
  change "/" with (String slash EmptyString) at 2 5.
  rewrite replace_first_same, replace_all_same. reflexivity.
Qed.

Lemma append_assoc (a b c : string) : (a ++ b) ++ c = a ++ (b ++ c).
Proof. induction a as [|x a IH]; simpl; [reflexivity | rewrite IH; reflexivity]. Qed.

Lemma split_by_free (is_sep : ascii -> bool) (s : string) :
  Docker.forall_chars (fun c => negb (is_sep c)) s = true ->
  JS.split_by is_sep s = (s, []).
Proof.
  induction s as [|c s IH]; simpl; intros H.
  - reflexivity.
  - apply andb_prop in H. destruct H as [Hc Hs].
    rewrite (IH Hs). apply negb_true_iff in Hc. rewrite Hc. reflexivity.
Qed.

Lemma segment_facts (s : string) :
  segment s = true ->
  JS.truthy s = true /\ String.eqb s "." = false /\ String.eqb s ".." = false /\
  JS.fields Path.is_slash s = [s].
Proof.
  unfold segment. intros H.
  apply andb_prop in H. destruct H as [H Hf].
  apply andb_prop in H. destruct H as [H Hdd].
  apply andb_prop in H. destruct H as [Ht Hd].
  apply negb_true_iff in Hd, Hdd.
  repeat split; try assumption.
  unfold JS.fields. rewrite (split_by_free _ s Hf). reflexivity.
Qed.

Lemma fields_slash_cons (s : string) :
  JS.fields Path.is_slash (String "/" s) = EmptyString :: JS.fields Path.is_slash s.
Proof. apply (fields_app_sep Path.is_slash EmptyString "/" s). reflexivity. Qed.

Lemma fields_segment_slash (seg s : string) :
  segment seg = true ->
  JS.fields Path.is_slash (seg ++ String "/" s) = seg :: JS.fields Path.is_slash s.
Proof.
  intros H. rewrite fields_app_sep by reflexivity.
  destruct (segment_facts seg H) as (_ & _ & _ & ->). reflexivity.
Qed.

(** Splitting undoes joining. *)
Lemma fields_concat (segs : list string) :
  Forall (fun s => segment s = true) segs -> segs <> [] ->
  JS.fields Path.is_slash (String.concat "/" segs) = segs.
Proof.
  induction 1 as [|seg segs Hseg Hsegs IH]; intros Hne.
  - contradiction.
  - destruct segs as [|seg' segs].
    + simpl. apply (segment_facts seg Hseg).
    + change (String.concat "/" (seg :: seg' :: segs))
        with (seg ++ String "/" (String.concat "/" (seg' :: segs))).
      rewrite (fields_segment_slash seg _ Hseg), IH by discriminate. reflexivity.
Qed.

Lemma normalize_segments_empty (above : bool) (stack rest : list string) :
  Path.normalize_segments above stack (EmptyString :: rest)
  = Path.normalize_segments above stack rest.
Proof. reflexivity. Qed.

Lemma normalize_segments_proper (above : bool) (segs : list string) :
  Forall (fun s => segment s = true) segs ->
  forall stack rest,
    Path.normalize_segments above stack (segs ++ rest)
    = Path.normalize_segments above (rev segs ++ stack) rest.
Proof.
  induction 1 as [|seg segs Hseg _ IH]; intros stack rest.
  - reflexivity.
  - destruct (segment_facts seg Hseg) as (Ht & Hd & Hdd & _).
    assert (He : String.eqb seg EmptyString = false).
    { destruct seg; [discriminate Ht | reflexivity]. }
    cbn [app Path.normalize_segments]. rewrite He, Hd, Hdd, IH.
    cbn [rev]. rewrite <- app_assoc. reflexivity.
Qed.

Lemma posix_resolve_rooted (cwd : string) (segs : list string) :
  Forall (fun s => segment s = true) segs ->
  Path.posix_resolve cwd (rooted segs) = segs.
Proof.
  intros H. unfold Path.posix_resolve, rooted.
  change (Path.posix_is_absolute ("/" ++ String.concat "/" segs)) with true. cbv iota.
  change ("/" ++ String.concat "/" segs) with (String "/" (String.concat "/" segs)).
  rewrite fields_slash_cons, normalize_segments_empty.
  destruct segs as [|seg segs'] eqn:E.
  - reflexivity.
  - rewrite <- E in *. rewrite fields_concat by (assumption || (subst; discriminate)).
    rewrite <- (app_nil_r segs) at 1.
    rewrite (normalize_segments_proper false segs H). simpl.
    rewrite app_nil_r. apply rev_involutive.
Qed.

Lemma drop_common_prefix (a b : list string) :
  Path.drop_common String.eqb a (a ++ b) = ([], b).
Proof.
  induction a as [|x a IH]; simpl.
  - destruct b; reflexivity.
  - rewrite String.eqb_refl. exact IH.
Qed.

Lemma posix_relative_under (cwd : string) (mount rel : list string) :
  Forall (fun s => segment s = true) mount ->
  Forall (fun s => segment s = true) rel ->
  Path.posix_relative cwd (rooted mount) (rooted (mount ++ rel))
  = String.concat "/" rel.
Proof.
  intros Hm Hr. unfold Path.posix_relative.
  rewrite (posix_resolve_rooted cwd mount Hm).
  rewrite (posix_resolve_rooted cwd (mount ++ rel)) by (apply Forall_app; split; assumption).
  unfold Path.relative_segments. rewrite drop_common_prefix. reflexivity.
Qed.

Lemma last_char_skip (a : string) (c : ascii) (b : string) :
  JS.last_char (a ++ String c b) = JS.last_char (String c b).
Proof.
  induction a as [|x a IH].
  - reflexivity.
  - rewrite <- IH. destruct a; reflexivity.
Qed.

Lemma concat_truthy (segs : list string) :
  Forall (fun s => segment s = true) segs -> segs <> [] ->
  JS.truthy (String.concat "/" segs) = true.
Proof.
  intros H Hne. destruct H as [|seg segs Hseg _]; [contradiction|].
  destruct (segment_facts seg Hseg) as (Ht & _).
  destruct segs; [exact Ht | apply truthy_app_l, Ht].
Qed.

(** X18: on a POSIX host, a path below the mount path is translated to the
    project directory of the container followed by the path relative to the
    mount, with a closing slash. *)
Lemma posix_translation (cwd name : string) (mount rel : list string) :
  segment name = true ->
  Forall (fun s => segment s = true) mount ->
  Forall (fun s => segment s = true) rel ->
  rel <> [] ->
  containerPath (Path.posix cwd) (mounted (rooted mount) name) (rooted (mount ++ rel))
  = "/" ++ name ++ "/" ++ String.concat "/" rel ++ "/".
Proof.
  intros Hn Hm Hr Hne.
  unfold containerPath, relativePath. simpl Path.sep. simpl Path.relative.
  simpl MOUNT_PATH. simpl PROJECT_NAME.
  rewrite (posix_relative_under cwd mount rel Hm Hr).
  change "/" with (String slash EmptyString) at 2. rewrite replace_first_same.
  set (r := String.concat "/" rel).
  assert (Hrt : JS.truthy r = true) by (apply concat_truthy; assumption).
  destruct (segment_facts name Hn) as (Hnt & _).
  unfold Path.posix_join. cbn [filter JS.truthy]. rewrite Hnt, Hrt.
  change (String.concat "/" ["/"; name; r; "/"])
    with (String "/" (String "/" (name ++ String "/" (r ++ String "/" "/")))).
  unfold Path.posix_normalize.
  change (String.eqb (String "/" (String "/" (name ++ String "/" (r ++ String "/" "/"))))
            EmptyString) with false.
  change (Path.posix_is_absolute
            (String "/" (String "/" (name ++ String "/" (r ++ String "/" "/")))))
    with true.
  cbv iota. cbn [negb].
  assert (Ht : JS.ends_with Path.is_slash
                 (String "/" (String "/" (name ++ String "/" (r ++ String "/" "/"))))
               = true).
  { unfold JS.ends_with.
    change (String "/" (String "/" (name ++ String "/" (r ++ String "/" "/"))))
      with (("//" ++ name) ++ String "/" (r ++ String "/" "/")).
    rewrite last_char_skip.
    change (String "/" (r ++ String "/" "/")) with (("/" ++ r) ++ String "/" "/").
    rewrite last_char_skip. reflexivity. }
  rewrite Ht.
  assert (Hf : Path.normalize_segments false []
                 (JS.fields Path.is_slash
                    (String "/" (String "/" (name ++ String "/" (r ++ String "/" "/")))))
               = name :: rel).
  { rewrite !fields_slash_cons, !normalize_segments_empty.
    rewrite (fields_segment_slash name _ Hn).
    rewrite fields_app_sep by reflexivity.
    unfold r. rewrite (fields_concat rel Hr Hne).
    change (name :: (rel ++ JS.fields Path.is_slash "/")%list)
      with (((name :: rel) ++ [EmptyString; EmptyString])%list).
    rewrite (normalize_segments_proper false (name :: rel)) by (constructor; assumption).
    simpl Path.normalize_segments. rewrite app_nil_r.
    apply (rev_involutive (name :: rel)). }
  rewrite Hf.
  assert (Hb : String.concat "/" (name :: rel) = name ++ "/" ++ r).
  { unfold r. destruct rel; [contradiction | reflexivity]. }
  rewrite Hb.
  assert (He : String.eqb (name ++ "/" ++ r) EmptyString = false).
  { destruct name; [discriminate Hnt | reflexivity]. }
  rewrite He. rewrite !append_assoc. reflexivity.
Qed.

Lemma posix_translation_witness :
  containerPath (Path.posix "/home/u/game")
    (mounted (rooted ["home"; "u"; "game"]) "game")
    (rooted (["home"; "u"; "game"] ++ ["node_modules"; "@n64"; "mikmod"]))
  = "/game/node_modules/@n64/mikmod/".
Proof.
  apply (posix_translation "/home/u/game" "game" ["home"; "u"; "game"]
           ["node_modules"; "@n64"; "mikmod"]).
  - reflexivity.
  - repeat constructor.
  - repeat constructor.
  - discriminate.
Defined.

(** * Part III: further properties of the script *)

(** ** Default options *)

(** X1: the project name is never empty: it is the package name of the
    environment when that is set and not empty, and libdragon otherwise. *)
Theorem project_name_never_empty (env : environment) (cwd : string) :
  JS.truthy (PROJECT_NAME (default_options env cwd)) = true /\
  (forall s, env_npm_package_name env = Some s -> s <> EmptyString ->
             PROJECT_NAME (default_options env cwd) = s) /\
  (env_npm_package_name env = None \/ env_npm_package_name env = Some EmptyString ->
   PROJECT_NAME (default_options env cwd) = "libdragon").
Proof.
  unfold default_options; simpl. repeat split.
  - destruct (env_npm_package_name env) as [[|c s]|]; reflexivity.
  - intros s -> Hs. destruct s; [contradiction | reflexivity].
  - intros [->| ->]; reflexivity.
Qed.

(** ** What the argument loop does to the options *)

Lemma visit_identity (pm : Path.module) (cwd : string) (argv : list string)
  (index : nat) (val : string) (d : dispatcher) :
  PROJECT_NAME (d_options (snd (visit pm cwd argv index val d)))
  = PROJECT_NAME (d_options d) /\
  IS_CI (d_options (snd (visit pm cwd argv index val d))) = IS_CI (d_options d) /\
  SELF_BUILD (d_options (snd (visit pm cwd argv index val d)))
  = SELF_BUILD (d_options d).
Proof.
  unfold visit.
  repeat match goal with
         | |- context [if ?c then _ else _] => destruct c
         | |- context [match ?x with _ => _ end] => destruct x
         end; simpl; auto.
Qed.

Lemma forEach_identity (pm : Path.module) (cwd : string) (argv : list string) :
  forall (vals : list string) (index : nat) (d : dispatcher),
    PROJECT_NAME (d_options (snd (forEach pm cwd argv index vals d)))
    = PROJECT_NAME (d_options d) /\
    IS_CI (d_options (snd (forEach pm cwd argv index vals d))) = IS_CI (d_options d) /\
    SELF_BUILD (d_options (snd (forEach pm cwd argv index vals d)))
    = SELF_BUILD (d_options d).
Proof.
  induction vals as [|val rest IH]; intros index d.
  - simpl. auto.
  - cbn [forEach].
    pose proof (visit_identity pm cwd argv index val d) as V.
    destruct (visit pm cwd argv index val d) as [s d']. simpl in V.
    destruct s; simpl; try exact V.
    destruct (IH (S index) d') as (I1 & I2 & I3).
    destruct V as (V1 & V2 & V3).
    rewrite I1, I2, I3. auto.
Qed.

(** X2: no command line changes the project name, the CI flag or the
    self-build flag: after the argument loop they are what the environment
    made them, however the loop ended. *)
Theorem arguments_keep_identity (env : environment) (pm : Path.module)
  (cwd : string) (argv : list string) :
  PROJECT_NAME (d_options (snd (main env pm cwd argv)))
  = PROJECT_NAME (default_options env cwd) /\
  IS_CI (d_options (snd (main env pm cwd argv))) = IS_CI (default_options env cwd) /\
  SELF_BUILD (d_options (snd (main env pm cwd argv)))
  = SELF_BUILD (default_options env cwd).
Proof. unfold main. apply forEach_identity. Qed.

Lemma visit_status_swap (pm : Path.module) (cwd : string) (argv : list string)
  (index : nat) (val : string) (d : dispatcher) :
  1 <= index ->
  lookup val <> Inherited ->
  fst (visit pm cwd argv index val d)
  = (if String.eqb val "--help" then Exited 0 else Going) /\
  BYTE_SWAP (d_options (snd (visit pm cwd argv index val d)))
  = BYTE_SWAP (d_options d) || is_byte_swap val.
Proof.
  intros Hi Hl. unfold visit, is_byte_swap.
  destruct (Nat.ltb_spec index 1) as [L|_]; [lia|].
  destruct (String.prefix "--mount-path=" val) eqn:Hm.
  - destruct (split_mount_some val Hm) as [p ->].
    destruct (prefix_split _ _ Hm) as [r ->]. simpl.
    rewrite orb_false_r. split; reflexivity.
  - destruct (String.eqb_spec val "--byte-swap") as [->|Hb].
    + simpl. rewrite orb_true_r. split; reflexivity.
    + destruct (String.eqb_spec val "--help") as [->|Hh].
      * simpl. rewrite orb_false_r. split; reflexivity.
      * destruct (lookup val); [| contradiction |];
          simpl; rewrite orb_false_r; split; reflexivity.
Qed.

Lemma forEach_byte_swap (pm : Path.module) (cwd : string) (argv : list string) :
  forall (vals : list string) (index : nat) (d : dispatcher),
    1 <= index ->
    (forall v, In v (before_help vals) -> lookup v <> Inherited) ->
    BYTE_SWAP (d_options (snd (forEach pm cwd argv index vals d)))
    = BYTE_SWAP (d_options d) || existsb is_byte_swap (before_help vals).
Proof.
  induction vals as [|val rest IH]; intros index d Hi Hin.
  - simpl. rewrite orb_false_r. reflexivity.
  - cbn [forEach before_help].
    destruct (String.eqb val "--help") eqn:Hh.
    + assert (Hv : lookup val <> Inherited).
      { apply String.eqb_eq in Hh. subst val. discriminate. }
      destruct (visit_status_swap pm cwd argv index val d Hi Hv) as [V1 V2].
      rewrite Hh in V1.
      destruct (visit pm cwd argv index val d) as [s d']. simpl in V1, V2. subst s.
      simpl. rewrite V2. apply String.eqb_eq in Hh. subst val. reflexivity.
    + cbn [before_help] in Hin. rewrite Hh in Hin.
      assert (Hv : lookup val <> Inherited) by (apply Hin; left; reflexivity).
      destruct (visit_status_swap pm cwd argv index val d Hi Hv) as [V1 V2].
      rewrite Hh in V1.
      destruct (visit pm cwd argv index val d) as [s d']. simpl in V1, V2. subst s.
      rewrite (IH (S index) d' ltac:(lia) (fun v Hv' => Hin v (or_intror Hv'))).
      rewrite V2. simpl. symmetry. apply orb_assoc.
Qed.

(** X3: the byte-swap option ends up set exactly when [--byte-swap] is among
    the arguments from index 1 up to the first [--help] (arguments naming an
    inherited function aside); it is never unset. *)
Theorem byte_swap_flag (env : environment) (pm : Path.module) (cwd : string)
  (argv : list string) :
  (forall v, In v (before_help (tl argv)) -> lookup v <> Inherited) ->
  BYTE_SWAP (d_options (snd (main env pm cwd argv)))
  = existsb is_byte_swap (before_help (tl argv)).
Proof.
  intros Hin. unfold main. fold (initial env cwd).
  destruct argv as [|v0 rest].
  - reflexivity.
  - change (forEach pm cwd (v0 :: rest) 0 (v0 :: rest) (initial env cwd))
      with (forEach pm cwd (v0 :: rest) 1 rest (initial env cwd)).
    rewrite (forEach_byte_swap pm cwd (v0 :: rest) rest 1 (initial env cwd) (le_n 1) Hin).
    reflexivity.
Qed.

Lemma byte_swap_flag_witness :
  BYTE_SWAP
    (d_options
       (snd (main sample_env (Path.posix "/home/u/game") "/home/u/game"
               ["node"; "index.js"; "start"; "--byte-swap"; "--help"; "--byte-swap"])))
  = true.
Proof.
  rewrite (byte_swap_flag sample_env (Path.posix "/home/u/game") "/home/u/game"
             ["node"; "index.js"; "start"; "--byte-swap"; "--help"; "--byte-swap"]).
  - reflexivity.
  - intros v Hv. simpl in Hv. destruct Hv as [<-|[<-|[<-|[]]]]; discriminate.
Defined.

Lemma visit_argv0 (pm : Path.module) (cwd a b : string) (rest : list string)
  (index : nat) (val : string) (d : dispatcher) :
  1 <= index ->
  visit pm cwd (a :: rest) index val d = visit pm cwd (b :: rest) index val d.
Proof. intros H. destruct index as [|k]; [lia | reflexivity]. Qed.

Lemma forEach_argv0 (pm : Path.module) (cwd a b : string) (rest : list string) :
  forall (vals : list string) (index : nat) (d : dispatcher),
    1 <= index ->
    forEach pm cwd (a :: rest) index vals d = forEach pm cwd (b :: rest) index vals d.
Proof.
  induction vals as [|val vals IH]; intros index d Hi.
  - reflexivity.
  - cbn [forEach]. rewrite (visit_argv0 pm cwd a b rest index val d Hi).
    destruct (visit pm cwd (b :: rest) index val d) as [[| |] d']; try reflexivity.
    apply IH. lia.
Qed.

(** X4: the argument at index 0 has no influence at all: whatever it is, a
    flag or a verb included, the loop ends in the same state with the same
    actions started on the same parameters. *)
Theorem first_argument_ignored (env : environment) (pm : Path.module)
  (cwd a b : string) (rest : list string) :
  main env pm cwd (a :: rest) = main env pm cwd (b :: rest).
Proof.
  unfold main. fold (initial env cwd).
  change (forEach pm cwd (a :: rest) 0 (a :: rest) (initial env cwd))
    with (forEach pm cwd (a :: rest) 1 rest (initial env cwd)).
  change (forEach pm cwd (b :: rest) 0 (b :: rest) (initial env cwd))
    with (forEach pm cwd (b :: rest) 1 rest (initial env cwd)).
  apply forEach_argv0. lia.
Qed.

Lemma visit_plain (pm : Path.module) (cwd : string) (argv : list string)
  (index : nat) (val : string) (d : dispatcher) :
  plain_argument val = true -> visit pm cwd argv index val d = (Going, d).
Proof.
  unfold plain_argument, visit. intros H.
  apply andb_prop in H. destruct H as [H Hl].
  apply andb_prop in H. destruct H as [H Hh].
  apply andb_prop in H. destruct H as [Hm Hb].
  apply negb_true_iff in Hm, Hb, Hh. rewrite Hm, Hb, Hh.
  destruct (Nat.ltb index 1); [reflexivity|].
  destruct (lookup val); [discriminate Hl | discriminate Hl | reflexivity].
Qed.

Lemma forEach_plain (pm : Path.module) (cwd : string) (argv : list string) :
  forall (vals : list string) (index : nat) (d : dispatcher),
    forallb plain_argument vals = true ->
    forEach pm cwd argv index vals d = (Going, d).
Proof.
  induction vals as [|val vals IH]; intros index d H.
  - reflexivity.
  - simpl in H. apply andb_prop in H. destruct H as [Hv Hr].
    cbn [forEach]. rewrite (visit_plain pm cwd argv index val d Hv).
    apply IH, Hr.
Qed.

(** X5: unknown verbs are passed over in silence: when no argument from
    index 1 on is a flag or names a function, the loop runs to its end,
    starts nothing, prints nothing and leaves the options at their
    defaults. *)
Theorem unknown_arguments_ignored (env : environment) (pm : Path.module)
  (cwd : string) (argv : list string) :
  forallb plain_argument (tl argv) = true ->
  main env pm cwd argv = (Going, initial env cwd).
Proof.
  intros H. unfold main. fold (initial env cwd).
  destruct argv as [|v0 rest].
  - reflexivity.
  - change (forEach pm cwd (v0 :: rest) 0 (v0 :: rest) (initial env cwd))
      with (forEach pm cwd (v0 :: rest) 1 rest (initial env cwd)).
    apply forEach_plain, H.
Qed.

Lemma unknown_arguments_ignored_witness :
  forallb plain_argument (tl ["node"; "/usr/lib/index.js"; "Start"; "--mount"; "run"]) = true /\
  main sample_env (Path.posix "/home/u/game") "/home/u/game"
    ["node"; "/usr/lib/index.js"; "Start"; "--mount"; "run"]
  = (Going, initial sample_env "/home/u/game").
Proof.
  split; [reflexivity|].
  apply (unknown_arguments_ignored sample_env (Path.posix "/home/u/game") "/home/u/game"
           ["node"; "/usr/lib/index.js"; "Start"; "--mount"; "run"]).
  reflexivity.
Defined.

Lemma assoc_in {A : Type} (key : string) (l : list (string * A)) :
  In key (map fst l) <-> exists v, assoc key l = Some v.
Proof.
  induction l as [|[k v] l IH]; simpl.
  - split; [intros [] | intros [v H]; discriminate H].
  - destruct (String.eqb_spec k key) as [->|N].
    + split; [intros _; exists v; reflexivity | intros _; left; reflexivity].
    + rewrite <- IH. split; [intros [E|H]; [contradiction | exact H] | intros H; right; exact H].
Qed.

(** X6: [--help] at any index from 1 on prints the heading and the eight
    action names, starts nothing more and ends the process with status 0;
    and the names it prints are exactly the arguments the loop would call
    as an action. *)
Theorem help_lists_the_verbs (pm : Path.module) (cwd : string) (argv : list string) :
  (forall (index : nat) (d : dispatcher),
     1 <= index ->
     visit pm cwd argv index "--help" d =
     (Exited 0,
      {| d_options := d_options d;
         d_stdout :=
           d_stdout d ++
           ["Available actions:"; "start"; "download"; "init"; "install"; "make";
            "stop"; "buildDragon"; "update"];
         d_started := d_started d |})) /\
  (forall val,
     In val ["start"; "download"; "init"; "install"; "make"; "stop";
             "buildDragon"; "update"]
     <-> exists a, lookup val = Own a).
Proof.
  split.
  - intros index d Hi. destruct index as [|k]; [lia | reflexivity].
  - intros val.
    change ["start"; "download"; "init"; "install"; "make"; "stop";
            "buildDragon"; "update"] with (map fst availableActions).
    rewrite assoc_in. split; intros [a H]; exists a; apply lookup_own; exact H.
Qed.

(** ** Images *)

Lemma command_image (verb rest : string) (st : Docker.store) :
  In verb ["pull"; "push"; "tag"; "build"] ->
  Docker.command ("docker" ++ String " " (verb ++ String " " rest)) st
  = (Stdout EmptyString, st).
Proof.
  intros H. unfold Docker.command.
  destruct H as [<-|[<-|[<-|[<-|[]]]]];
    rewrite !words_cons_word by reflexivity; reflexivity.
Qed.

Lemma command_pull (tag : string) (st : Docker.store) :
  Docker.command (pull_command tag) st = (Stdout EmptyString, st).
Proof.
  apply (command_image "pull" (DOCKER_HUB_NAME ++ ":" ++ tag)). simpl. auto.
Qed.

Lemma command_push (tag : string) (st : Docker.store) :
  Docker.command (push_command tag) st = (Stdout EmptyString, st).
Proof.
  apply (command_image "push" (DOCKER_HUB_NAME ++ ":" ++ tag)). simpl. auto.
Qed.

Lemma command_tag_latest (version : string) (st : Docker.store) :
  Docker.command (tag_latest_command version) st = (Stdout EmptyString, st).
Proof.
  apply (command_image "tag"
           (DOCKER_HUB_NAME ++ ":" ++ version ++ " " ++ DOCKER_HUB_NAME ++ ":latest")).
  simpl. auto.
Qed.

Lemma command_build_dragon (version : string) (st : Docker.store) :
  Docker.command (build_dragon_command version) st = (Stdout EmptyString, st).
Proof.
  apply (command_image "build"
           ("--build-arg DOCKER_HUB_NAME=" ++ DOCKER_HUB_NAME ++
            " --build-arg BASE_VERSION=" ++ BASE_VERSION ++
            " -t " ++ DOCKER_HUB_NAME ++ ":" ++ version ++ " -f ./dragon.Dockerfile ./")).
  simpl. auto.
Qed.

(** X7: outside a container, [download] pulls the base image first; in a
    self-build it stops there, the versioned image is never pulled;
    otherwise the versioned image is pulled once the base pull has
    succeeded, and a failed base pull ends the download. *)
Theorem download_pulls {W : Type} (sys : system W) (w : W) (env : environment)
  (opts : options) (version : string) :
  in_container env = false ->
  trace (run sys (download env opts version) w) =
  match sys_exec sys (pull_command BASE_VERSION) w with
  | (Failure _, _) => [pull_command BASE_VERSION]
  | (Stdout _, _) =>
      if SELF_BUILD opts then [pull_command BASE_VERSION]
      else [pull_command BASE_VERSION; pull_command version]
  end.
Proof.
  intros Hc. unfold download. rewrite Hc.
  fold (pull_command BASE_VERSION). fold (pull_command version).
  rewrite run_bind, run_runCommand.
  destruct (sys_exec sys (pull_command BASE_VERSION) w) as [[out|code] w1]; [|reflexivity].
  destruct (SELF_BUILD opts); simpl.
  - reflexivity.
  - destruct (sys_exec sys _ w1) as [[out'|code] w2]; reflexivity.
Qed.

Lemma download_pulls_witness :
  trace (run Docker.engine (download sample_env sample_options "1.0.0") other_container)
  = [pull_command BASE_VERSION; pull_command "1.0.0"].
Proof.
  rewrite (download_pulls Docker.engine other_container sample_env sample_options "1.0.0");
    reflexivity.
Defined.

(** ** Removing the container *)

Lemma command_ps (opts : options) (st : Docker.store) :
  blankfree (PROJECT_NAME opts) = true ->
  Docker.command (ps_command opts) st
  = Docker.listing (name_pattern (PROJECT_NAME opts)) st.
Proof.
  intros H. unfold Docker.command.
  rewrite words_ps_command, (words_name_pattern_valid _ H). reflexivity.
Qed.

Lemma command_rm_name (opts : options) (st : Docker.store) :
  Docker.valid_name (PROJECT_NAME opts) = true ->
  Docker.command (rm_command opts) st = Docker.remove [PROJECT_NAME opts] st.
Proof.
  intros Hv. destruct (valid_name_blankfree _ Hv) as [Hb Ht].
  unfold Docker.command, rm_command.
  change ("docker rm -f " ++ PROJECT_NAME opts)
    with ("docker" ++ String " " ("rm" ++ String " " ("-f" ++ String " " (PROJECT_NAME opts)))).
  rewrite !words_cons_word by reflexivity.
  rewrite (words_single _ Hb Ht). reflexivity.
Qed.

Lemma remove_by_name (name : string) (st : Docker.store) :
  Docker.named name (snd (Docker.remove [name] st)) = [].
Proof.
  rewrite named_remove. unfold Docker.named.
  induction (Docker.containers st) as [|c l IH]; simpl.
  - reflexivity.
  - destruct (String.eqb_spec (Docker.cname c) name) as [E|N]; [|exact IH].
    simpl. rewrite <- E at 1. rewrite refers_name. simpl. exact IH.
Qed.

Lemma remove_present (name : string) (st : Docker.store) :
  Docker.named name st <> [] ->
  exists out, Docker.remove [name] st = (Stdout out, snd (Docker.remove [name] st)).
Proof.
  intros H. destruct (Docker.named name st) as [|c l] eqn:E; [contradiction|].
  assert (Hin : In c (Docker.named name st)) by (rewrite E; left; reflexivity).
  apply in_named in Hin. destruct Hin as [Hin Hn].
  assert (X : existsb (Docker.refers name) (Docker.containers st) = true).
  { apply existsb_exists. exists c. split; [exact Hin|]. rewrite <- Hn. apply refers_name. }
  unfold Docker.remove. simpl. rewrite X. simpl. eexists. reflexivity.
Qed.

Lemma listing_present (name : string) (st : Docker.store) :
  Docker.named name st <> [] ->
  exists out, Docker.listing (name_pattern name) st = (Stdout out, st) /\
              JS.truthy out = true.
Proof.
  intros H. rewrite listing_named.
  destruct (Docker.named name st) as [|c l]; [contradiction|].
  eexists. split; [reflexivity|].
  cbn [map String.concat]. destruct l.
  - apply truthy_line.
  - apply truthy_app_l, truthy_line.
Qed.

Lemma stop_present (files : string -> bool) (env : environment) (opts : options)
  (st : Docker.store) :
  in_container env = false ->
  Docker.valid_name (PROJECT_NAME opts) = true ->
  Docker.named (PROJECT_NAME opts) st <> [] ->
  run (Docker.host files) (stop env opts) st =
  (Resolved tt, snd (Docker.remove [PROJECT_NAME opts] st),
   [ps_command opts; rm_command opts]).
Proof.
  intros Hc Hv Hn. destruct (valid_name_blankfree _ Hv) as [Hb _].
  rewrite (run_stop _ _ _ _ Hc).
  change (sys_exec (Docker.host files)) with Docker.command.
  rewrite (command_ps opts st Hb).
  destruct (listing_present _ st Hn) as (out & -> & ->).
  fold (rm_command opts). rewrite (command_rm_name opts st Hv).
  destruct (remove_present _ st Hn) as (out' & E).
  destruct (Docker.remove [PROJECT_NAME opts] st) as [r st1].
  simpl in E |- *. injection E as ->. reflexivity.
Qed.

(** X8: outside a container, on a store that holds a container of the
    reserved name (running or not), [stop] lists it, force-removes it by
    name and resolves; no container of that name is left. *)
Theorem stop_removes_container (files : string -> bool) (env : environment)
  (opts : options) (st : Docker.store) :
  in_container env = false ->
  Docker.valid_name (PROJECT_NAME opts) = true ->
  Docker.named (PROJECT_NAME opts) st <> [] ->
  outcome (run (Docker.host files) (stop env opts) st) = Resolved tt /\
  trace (run (Docker.host files) (stop env opts) st)
  = [ps_command opts; rm_command opts] /\
  Docker.named (PROJECT_NAME opts) (final (run (Docker.host files) (stop env opts) st))
  = [].
Proof.
  intros Hc Hv Hn. rewrite (stop_present files env opts st Hc Hv Hn).
  repeat split. apply remove_by_name.
Qed.

Lemma stop_removes_container_witness :
  Docker.named (PROJECT_NAME sample_options) two_containers <> [] /\
  Docker.named (PROJECT_NAME sample_options)
    (final (run Docker.engine (stop sample_env sample_options) two_containers))
  = [].
Proof.
  split; [discriminate|].
  destruct (stop_removes_container (fun _ => false) sample_env sample_options
              two_containers eq_refl eq_refl) as (_ & _ & H).
  - discriminate.
  - exact H.
Defined.

(** ** Actions one after the other *)

Lemma make_present (files : string -> bool) (env : environment) (opts : options)
  (param : string) (st : Docker.store) :
  in_container env = false ->
  Docker.valid_name (PROJECT_NAME opts) = true ->
  Docker.named (PROJECT_NAME opts) st <> [] ->
  run (Docker.host files) (make env opts param) st =
  (Resolved tt, snd (Docker.start (PROJECT_NAME opts) st),
   [start_command opts; exec_make_command opts param]).
Proof.
  intros Hc Hv Hn. rewrite (run_make _ _ _ _ _ Hc).
  change (sys_exec (Docker.host files)) with Docker.command.
  rewrite (command_start opts st Hv).
  destruct (start_present _ st Hn) as (out & Hst & Hrun).
  destruct (Docker.start (PROJECT_NAME opts) st) as [r st1].
  simpl in Hst, Hrun |- *. injection Hst as ->.
  rewrite (command_exec_make opts param _ Hv).
  unfold Docker.exec_in. rewrite Hrun. reflexivity.
Qed.

Lemma length_one_present {A : Type} (l : list A) : List.length l = 1 -> l <> [].
Proof. destruct l; simpl; [discriminate | intros _; discriminate]. Qed.

(** X9: outside a container, from any store with at most one container of
    the (valid) reserved name, the start, a make and the stop run one after
    the other all resolve: after the commands of the start come the start
    of the container, the exec of make with the parameter, the listing and
    the removal, and no container of the name is left at the end. *)
Theorem session_runs (files : string -> bool) (env : environment) (opts : options)
  (version : string) (forceLatest : bool) (param : string) (st : Docker.store) :
  in_container env = false ->
  Docker.valid_name (PROJECT_NAME opts) = true ->
  List.length (Docker.named (PROJECT_NAME opts) st) <= 1 ->
  outcome (run (Docker.host files) (session env opts version forceLatest param) st)
  = Resolved tt /\
  trace (run (Docker.host files) (session env opts version forceLatest param) st)
  = List.app
      (trace (run (Docker.host files) (startToolchain env opts version forceLatest) st))
      ["docker start " ++ PROJECT_NAME opts;
       "docker exec " ++ PROJECT_NAME opts ++ " make " ++ param;
       "docker ps -a -q -f name=^/" ++ PROJECT_NAME opts ++ "$";
       "docker rm -f " ++ PROJECT_NAME opts] /\
  Docker.named (PROJECT_NAME opts)
    (final (run (Docker.host files) (session env opts version forceLatest param) st))
  = [].
Proof.
  intros Hc Hv Hu. unfold session. rewrite run_bind.
  destruct (start_once files env opts version forceLatest st Hc Hv Hu) as [R1 L1].
  destruct (run (Docker.host files) (startToolchain env opts version forceLatest) st)
    as [[r1 st1] t1].
  unfold outcome, final in R1, L1. simpl in R1, L1. subst r1.
  rewrite run_bind.
  rewrite (make_present files env opts param st1 Hc Hv (length_one_present _ L1)).
  assert (L2 : Docker.named (PROJECT_NAME opts)
                 (snd (Docker.start (PROJECT_NAME opts) st1)) <> []).
  { apply length_one_present. rewrite named_start. exact L1. }
  rewrite (stop_present files env opts _ Hc Hv L2).
  unfold outcome, trace, final. cbn [fst snd]. repeat split.
  apply remove_by_name.
Qed.

Lemma session_runs_witness :
  List.length (Docker.named (PROJECT_NAME sample_options) two_containers) <= 1 /\
  outcome (run Docker.engine (session sample_env sample_options "1.0.0" false "-C src")
             two_containers)
  = Resolved tt /\
  trace (run Docker.engine (session sample_env sample_options "1.0.0" false "-C src")
           two_containers)
  = List.app
      (trace (run Docker.engine (startToolchain sample_env sample_options "1.0.0" false)
                two_containers))
      ["docker start game"; "docker exec game make -C src";
       "docker ps -a -q -f name=^/game$"; "docker rm -f game"].
Proof.
  split; [simpl; lia|].
  destruct (session_runs (fun _ => false) sample_env sample_options "1.0.0" false "-C src"
              two_containers eq_refl eq_refl) as (H & T & _).
  - simpl. lia.
  - split; [exact H | exact T].
Defined.

Lemma stop_clears (files : string -> bool) (env : environment) (opts : options)
  (st : Docker.store) :
  in_container env = false ->
  Docker.valid_name (PROJECT_NAME opts) = true ->
  outcome (run (Docker.host files) (stop env opts) st) = Resolved tt /\
  Docker.named (PROJECT_NAME opts) (final (run (Docker.host files) (stop env opts) st))
  = [].
Proof.
  intros Hc Hv.
  destruct (Docker.named (PROJECT_NAME opts) st) as [|c l] eqn:E.
  - rewrite (run_stop _ _ _ _ Hc).
    change (sys_exec (Docker.host files)) with Docker.command.
    rewrite (command_ps_absent opts st E). split; [reflexivity | exact E].
  - rewrite (stop_present files env opts st Hc Hv) by (rewrite E; discriminate).
    split; [reflexivity | apply remove_by_name].
Qed.

(** X10: outside a container, [update] first removes the container of the
    reserved name, if there is one, then pushes the versioned image, tags it
    latest and pushes latest, in this order; on the engine it resolves and
    leaves no container of that name. *)
Theorem update_stops_then_pushes (files : string -> bool) (env : environment)
  (opts : options) (version : string) (st : Docker.store) :
  in_container env = false ->
  Docker.valid_name (PROJECT_NAME opts) = true ->
  outcome (run (Docker.host files) (update env opts version) st) = Resolved tt /\
  trace (run (Docker.host files) (update env opts version) st)
  = (trace (run (Docker.host files) (stop env opts) st) ++
     [push_command version; tag_latest_command version; push_command "latest"])%list /\
  Docker.named (PROJECT_NAME opts)
    (final (run (Docker.host files) (update env opts version) st))
  = [].
Proof.
  intros Hc Hv. unfold update. rewrite Hc. rewrite run_bind.
  destruct (stop_clears files env opts st Hc Hv) as [R N].
  destruct (run (Docker.host files) (stop env opts) st) as [[r st1] t1].
  unfold outcome, final in R, N. simpl in R, N. subst r.
  fold (push_command version). fold (tag_latest_command version).
  fold (push_command "latest").
  unfold UPDATE_LATEST, when.
  rewrite !run_bind, !run_runCommand.
  change (sys_exec (Docker.host files)) with Docker.command.
  rewrite command_push. rewrite !run_bind, !run_runCommand.
  change (sys_exec (Docker.host files)) with Docker.command.
  rewrite command_tag_latest. rewrite run_runCommand.
  change (sys_exec (Docker.host files)) with Docker.command.
  change ("docker push " ++ DOCKER_HUB_NAME ++ ":latest") with (push_command "latest").
  rewrite command_push.
  unfold outcome, trace, final. simpl. repeat split. exact N.
Qed.

Lemma update_stops_then_pushes_witness :
  trace (run Docker.engine (update sample_env sample_options "1.0.0") two_containers)
  = [ps_command sample_options; rm_command sample_options;
     push_command "1.0.0"; tag_latest_command "1.0.0"; push_command "latest"].
Proof.
  destruct (update_stops_then_pushes (fun _ => false) sample_env sample_options "1.0.0"
              two_containers eq_refl eq_refl) as (_ & H & _).
  unfold Docker.engine. rewrite H. reflexivity.
Defined.

Lemma buildDragon_command (env : environment) (opts : options) (version : string) :
  buildDragon env opts version =
  runCommand (build_dragon_command version) >> startToolchain env opts version true.
Proof. reflexivity. Qed.

(** X11: outside a container, from any store with at most one container of
    the (valid) reserved name, [buildDragon] and [init] resolve on the
    engine and leave exactly one container of that name, whatever the
    self-build flag says. *)
Theorem build_leaves_one_container (files : string -> bool) (env : environment)
  (opts : options) (version : string) (st : Docker.store) :
  in_container env = false ->
  Docker.valid_name (PROJECT_NAME opts) = true ->
  List.length (Docker.named (PROJECT_NAME opts) st) <= 1 ->
  (outcome (run (Docker.host files) (buildDragon env opts version) st) = Resolved tt /\
   List.length
     (Docker.named (PROJECT_NAME opts)
        (final (run (Docker.host files) (buildDragon env opts version) st))) = 1) /\
  (outcome (run (Docker.host files) (initialize env opts version) st) = Resolved tt /\
   List.length
     (Docker.named (PROJECT_NAME opts)
        (final (run (Docker.host files) (initialize env opts version) st))) = 1).
Proof.
  intros Hc Hv Hu.
  assert (B : forall st', List.length (Docker.named (PROJECT_NAME opts) st') <= 1 ->
              outcome (run (Docker.host files) (buildDragon env opts version) st')
              = Resolved tt /\
              List.length
                (Docker.named (PROJECT_NAME opts)
                   (final (run (Docker.host files) (buildDragon env opts version) st')))
              = 1).
  { intros st' Hu'. rewrite buildDragon_command.
    rewrite run_bind, run_runCommand.
    change (sys_exec (Docker.host files)) with Docker.command.
    rewrite command_build_dragon.
    destruct (start_once files env opts version true st' Hc Hv Hu') as [R L].
    destruct (run (Docker.host files) (startToolchain env opts version true) st')
      as [[r st1] t1].
    exact (conj R L). }
  split; [apply B, Hu|].
  unfold initialize. rewrite Hc.
  rewrite run_bind, run_runCommand.
  change (sys_exec (Docker.host files)) with Docker.command.
  change ("docker build -t " ++ DOCKER_HUB_NAME ++ ":" ++ BASE_VERSION ++ " ./")
    with ("docker" ++ String " " ("build" ++ String " "
            ("-t " ++ DOCKER_HUB_NAME ++ ":" ++ BASE_VERSION ++ " ./"))).
  rewrite command_image by (simpl; auto).
  destruct (B st Hu) as [R L].
  destruct (run (Docker.host files) (buildDragon env opts version) st) as [[r st1] t1].
  exact (conj R L).
Qed.

Lemma build_leaves_one_container_witness :
  List.length
    (Docker.named (PROJECT_NAME sample_options)
       (final (run Docker.engine (initialize sample_env sample_options "1.0.0")
                 two_containers))) = 1.
Proof.
  destruct (build_leaves_one_container (fun _ => false) sample_env sample_options "1.0.0"
              two_containers eq_refl eq_refl) as (_ & _ & H).
  - simpl. lia.
  - exact H.
Defined.

(** ** Inside the container, again *)

Lemma run_issues_only {W A : Type} (sys : system W) (P : string -> bool) (p : prog A) :
  issues_only P p -> forall w, forallb P (trace (run sys p w)) = true.
Proof.
  induction 1 as [a|e|cmd k Hcmd _ IH|file k _ IH]; intros w; simpl.
  - reflexivity.
  - reflexivity.
  - destruct (sys_exec sys cmd w) as [[out|code] w1].
    + specialize (IH out w1).
      destruct (run sys (k out) w1) as [[r w2] t].
      unfold trace in *. simpl in *. rewrite Hcmd, IH. reflexivity.
    + unfold trace. simpl. rewrite Hcmd. reflexivity.
  - apply IH.
Qed.

Lemma issues_only_bind {A B : Type} (P : string -> bool) (p : prog A) (f : A -> prog B) :
  issues_only P p -> (forall a, issues_only P (f a)) -> issues_only P (bind p f).
Proof.
  intros Hp Hf. induction Hp; simpl.
  - apply Hf.
  - apply io_throw.
  - apply io_exec; assumption.
  - apply io_access; assumption.
Qed.

Lemma issues_only_all {A : Type} (P : string -> bool) (ps : list (prog A)) :
  (forall p, In p ps -> issues_only P p) -> issues_only P (all ps).
Proof.
  induction ps as [|p ps IH]; intros H; simpl.
  - apply io_ret.
  - apply issues_only_bind; [apply H; left; reflexivity|].
    intros x. apply issues_only_bind.
    + apply IH. intros q Hq. apply H. right. exact Hq.
    + intros xs. apply io_ret.
Qed.

Lemma issues_only_promise_all {A : Type} (P : string -> bool) (ps : list (promise A)) :
  (forall q, In (Pending q) ps -> issues_only P q) -> issues_only P (promise_all ps).
Proof.
  intros H. unfold promise_all. destruct (first_rejection ps); [apply io_throw|].
  apply issues_only_all. intros p Hp. apply in_map_iff in Hp.
  destruct Hp as ([[a|e]|q] & <- & Hin); simpl.
  - apply io_ret.
  - apply io_throw.
  - apply H, Hin.
Qed.

Lemma install_in_container (env : environment) (opts : options) (version : string)
  (pm : Path.module) (dependencies devDependencies : list string) :
  in_container env = true ->
  issues_only not_docker (install env opts version pm dependencies devDependencies).
Proof.
  intros Hc. unfold install, download, startToolchain. rewrite Hc. simpl.
  apply issues_only_bind.
  - unfold resolve_all. apply issues_only_all. intros p Hp.
    apply in_map_iff in Hp. destruct Hp as (dep & <- & _).
    unfold resolve_dependency. simpl. apply io_exec; [reflexivity|].
    intros out. apply io_ret.
  - intros ds. unfold install_all. apply issues_only_bind; [|intros; apply io_ret].
    apply issues_only_promise_all. intros q Hq.
    apply in_map_iff in Hq. destruct Hq as (d & Hd & _).
    unfold install_dependency in Hd.
    destruct (Nat.ltb 1 (List.length (dep_paths d))); [discriminate Hd|].
    destruct (dep_paths d) as [|path0 l]; [discriminate Hd|].
    injection Hd as <-. apply io_access. intros [|]; [|apply io_ret].
    simpl. apply io_exec; [|intros; apply io_ret].
    unfold install_command. rewrite Hc. reflexivity.
Qed.

(** X12: inside the container no action but [buildDragon] hands a command
    to the container engine, whatever the host answers: [make] and
    [install] run their commands directly, the others do nothing.
    [buildDragon] has no such guard: its docker build is issued there too,
    and is the only command it issues. *)
Theorem no_docker_inside_container (env : environment) (opts : options)
  (version : string) (pm : Path.module) (dependencies devDependencies : list string) :
  in_container env = true ->
  (forall (a : action) (param : string) (W : Type) (sys : system W) (w : W),
     a <> BuildDragon ->
     forallb not_docker
       (trace (run sys (perform env opts version pm dependencies devDependencies a param) w))
     = true) /\
  (forall (W : Type) (sys : system W) (w : W),
     trace (run sys (buildDragon env opts version) w) = [build_dragon_command version]).
Proof.
  intros Hc. split.
  - intros a param W sys w Ha. apply run_issues_only.
    destruct a; simpl; try contradiction;
      try (unfold startToolchain, download, initialize, stop, update; rewrite Hc;
           apply io_ret).
    + apply install_in_container, Hc.
    + unfold make. rewrite Hc. simpl. apply io_exec; [reflexivity|].
      intros out. apply io_ret.
  - intros W sys w. rewrite buildDragon_command, run_bind, run_runCommand.
    destruct (sys_exec sys (build_dragon_command version) w) as [[out|code] w1];
      [|reflexivity].
    unfold startToolchain. rewrite Hc. reflexivity.
Qed.

Lemma no_docker_inside_container_witness :
  forallb not_docker
    (trace (run (answering two_paths)
              (perform container_env sample_options "1.0.0" (Path.posix "/home/u/game")
                 ["mikmod"] ["libdragon"] Make "-C src") tt))
  = true.
Proof.
  destruct (no_docker_inside_container container_env sample_options "1.0.0"
              (Path.posix "/home/u/game") ["mikmod"] ["libdragon"] eq_refl) as [H _].
  apply H. discriminate.
Defined.

(** ** Resolving the dependencies *)

Lemma uniq_in (x : string) (l : list string) : In x (JS.uniq l) <-> In x l.
Proof.
  split; [|apply in_uniq].
  induction l as [|a l IH]; simpl.
  - intros [].
  - intros [H|H]; [left; exact H|].
    apply filter_In in H. right. apply IH, H.
Qed.

Lemma uniq_NoDup (l : list string) : NoDup (JS.uniq l).
Proof.
  induction l as [|a l IH]; simpl.
  - constructor.
  - constructor.
    + intros H. apply filter_In in H. destruct H as [_ H].
      rewrite String.eqb_refl in H. discriminate H.
    + apply NoDup_filter, IH.
Qed.

Lemma filter_other (a : string) (l : list string) :
  ~ In a l -> filter (fun y => negb (String.eqb a y)) l = l.
Proof.
  induction l as [|b l IH]; simpl; intros H.
  - reflexivity.
  - destruct (String.eqb_spec a b) as [->|N].
    + elim H. left. reflexivity.
    + simpl. rewrite IH; [reflexivity|]. intros Hin. apply H. right. exact Hin.
Qed.

Lemma uniq_NoDup_same (l : list string) : NoDup l -> JS.uniq l = l.
Proof.
  induction 1 as [|a l Ha _ IH]; simpl.
  - reflexivity.
  - rewrite IH, (filter_other a l Ha). reflexivity.
Qed.

Lemma split_by_parts_free (is_sep : ascii -> bool) (s q : string) :
  In q (JS.fields is_sep s) ->
  Docker.forall_chars (fun c => negb (is_sep c)) q = true.
Proof.
  unfold JS.fields. revert q. induction s as [|c s IH]; intros q; simpl.
  - intros [<-|[]]. reflexivity.
  - destruct (JS.split_by is_sep s) as [p ps].
    destruct (is_sep c) eqn:E; simpl.
    + intros [<-|H]; [reflexivity | apply IH, H].
    + intros [<-|H].
      * simpl. rewrite E. simpl. apply IH. left. reflexivity.
      * apply IH. right. exact H.
Qed.

(** X13: whatever npm prints, the paths of a resolved dependency are
    distinct, none is empty and none holds a line end; exactly one command
    is issued, and a failing npm rejects with its exit status. *)
Theorem resolved_paths_wellformed {W : Type} (sys : system W) (w : W) (dep : string) :
  match run sys (resolve_dependency dep) w with
  | (Resolved d, _, t) =>
      dep_name d = dep /\ NoDup (dep_paths d) /\
      Forall (fun p => path_line p = true) (dep_paths d) /\
      t = [npm_ls_command dep]
  | (Rejected e, _, t) =>
      (exists code, e = ExecutionError code) /\ t = [npm_ls_command dep]
  end.
Proof.
  unfold resolve_dependency. fold (npm_ls_command dep).
  rewrite run_bind, run_runCommand.
  destruct (sys_exec sys (npm_ls_command dep) w) as [[out|code] w1]; simpl.
  - repeat split.
    + apply uniq_NoDup.
    + apply Forall_forall. intros p Hp. apply (proj1 (uniq_in _ _)) in Hp.
      apply filter_In in Hp. destruct Hp as [Hp Ht].
      unfold path_line. rewrite Ht. simpl.
      apply (split_by_parts_free (Ascii.eqb newline) out p Hp).
  - split; [exists code; reflexivity | reflexivity].
Qed.

Lemma append_nil_r (s : string) : s ++ EmptyString = s.
Proof. induction s as [|c s IH]; simpl; [reflexivity | rewrite IH; reflexivity]. Qed.

Lemma concat_lines_cons (p : string) (ps : list string) :
  String.concat EmptyString (map Docker.line (p :: ps))
  = p ++ String newline (String.concat EmptyString (map Docker.line ps)).
Proof.
  unfold Docker.line. destruct ps as [|q ps]; cbn [map String.concat].
  - reflexivity.
  - rewrite append_assoc. reflexivity.
Qed.

Lemma fields_lines (ps : list string) :
  Forall (fun p => path_line p = true) ps ->
  JS.fields (Ascii.eqb newline) (String.concat EmptyString (map Docker.line ps))
  = (ps ++ [EmptyString])%list.
Proof.
  induction 1 as [|p ps Hp _ IH].
  - reflexivity.
  - rewrite concat_lines_cons, fields_app_sep by reflexivity. rewrite IH.
    unfold path_line in Hp. apply andb_prop in Hp. destruct Hp as [_ Hp].
    unfold JS.fields. rewrite (split_by_free (Ascii.eqb newline) p Hp). reflexivity.
Qed.

Lemma filter_truthy_lines (ps : list string) :
  Forall (fun p => path_line p = true) ps -> filter JS.truthy ps = ps.
Proof.
  induction 1 as [|p ps Hp _ IH]; simpl.
  - reflexivity.
  - unfold path_line in Hp. apply andb_prop in Hp. destruct Hp as [-> _].
    rewrite IH. reflexivity.
Qed.

(** X14: when npm prints distinct paths, one to a line, the dependency is
    resolved to exactly these paths, in the order printed. *)
Theorem resolve_round_trip (dep : string) (ps : list string) :
  Forall (fun p => path_line p = true) ps ->
  NoDup ps ->
  run (answering (String.concat EmptyString (map Docker.line ps)))
      (resolve_dependency dep) tt
  = (Resolved {| dep_name := dep; dep_paths := ps |}, tt, [npm_ls_command dep]).
Proof.
  intros Hl Hn. unfold resolve_dependency. simpl.
  rewrite (fields_lines ps Hl), filter_app, (filter_truthy_lines ps Hl). simpl.
  rewrite app_nil_r, (uniq_NoDup_same ps Hn). reflexivity.
Qed.

Lemma resolve_round_trip_witness :
  run (answering two_paths) (resolve_dependency "mikmod") tt
  = (Resolved {| dep_name := "mikmod";
                 dep_paths := ["/home/u/game/node_modules/mikmod";
                               "/home/u/game/node_modules/n64/node_modules/mikmod"] |},
     tt, [npm_ls_command "mikmod"]).
Proof.
  apply (resolve_round_trip "mikmod"
           ["/home/u/game/node_modules/mikmod";
            "/home/u/game/node_modules/n64/node_modules/mikmod"]).
  - repeat constructor.
  - constructor.
    + intros [H|[]]. discriminate H.
    + constructor; [intros [] | constructor].
Defined.

(** X15: the dependencies [install] resolves are the declared ones, direct
    and development alike, each once and never the toolchain itself. *)
Theorem dependency_names_spec (dependencies devDependencies : list string) :
  NoDup (dependency_names dependencies devDependencies) /\
  forall dep,
    In dep (dependency_names dependencies devDependencies) <->
    (In dep dependencies \/ In dep devDependencies) /\ dep <> "libdragon".
Proof.
  unfold dependency_names. split.
  - apply NoDup_filter, uniq_NoDup.
  - intros dep. rewrite filter_In, uniq_in, in_app_iff, negb_true_iff, String.eqb_neq.
    reflexivity.
Qed.

(** ** Dependencies without a build file, and dependencies without a path *)

Lemma first_rejection_pending (env : environment) (opts : options) (pm : Path.module)
  (ds : list dependency) :
  (forall d, In d ds -> List.length (dep_paths d) = 1) ->
  forall rest,
    first_rejection (map (install_dependency env opts pm) ds ++ rest)%list
    = first_rejection rest.
Proof.
  induction ds as [|d ds IH]; intros H rest.
  - reflexivity.
  - simpl. destruct (install_dependency_cases env opts pm d)
      as [[L _]|[[E _]|[_ (q & -> & _)]]].
    + rewrite (H d (or_introl eq_refl)) in L. lia.
    + pose proof (H d (or_introl eq_refl)) as L. rewrite E in L. discriminate L.
    + apply IH. intros d' Hd'. apply H. right. exact Hd'.
Qed.




(** X17: the first dependency that does not have exactly one path decides:
    with no path at all the install rejects with a type error, with several
    it rejects with the ambiguity error; either way at once, before any
    command for a dependency is issued. *)
Theorem first_unusable_dependency_rejects {W : Type} (sys : system W) (w : W)
  (env : environment) (opts : options) (pm : Path.module)
  (before after : list dependency) (d : dependency) :
  (forall d', In d' before -> List.length (dep_paths d') = 1) ->
  (dep_paths d = [] ->
   run sys (install_all env opts pm (before ++ d :: after)) w
   = (Rejected TypeError, w, [])) /\
  (1 < List.length (dep_paths d) ->
   run sys (install_all env opts pm (before ++ d :: after)) w
   = (Rejected ambiguous, w, [])).
Proof.
  intros H. unfold install_all, promise_all.
  rewrite map_app, (first_rejection_pending env opts pm before H). cbn [map first_rejection].
  split; intros Hd.
  - unfold install_dependency at 1. rewrite Hd. reflexivity.
  - unfold install_dependency at 1.
    destruct (Nat.ltb_spec 1 (List.length (dep_paths d))) as [_|L]; [reflexivity | lia].
Qed.

Lemma first_unusable_dependency_rejects_witness :
  run Docker.engine
      (install_all sample_env sample_options (Path.posix "/home/u/game")
         ([{| dep_name := "mikmod"; dep_paths := ["/home/u/game/node_modules/mikmod"] |}]
          ++ {| dep_name := "gone"; dep_paths := [] |}
          :: [{| dep_name := "twice"; dep_paths := ["/a"; "/b"] |}]))
      other_container
  = (Rejected TypeError, other_container, []).
Proof.
  destruct (first_unusable_dependency_rejects Docker.engine other_container sample_env
              sample_options (Path.posix "/home/u/game")
              [{| dep_name := "mikmod"; dep_paths := ["/home/u/game/node_modules/mikmod"] |}]
              [{| dep_name := "twice"; dep_paths := ["/a"; "/b"] |}]
              {| dep_name := "gone"; dep_paths := [] |}) as [H _].
  - intros d' [<-|[]]. reflexivity.
  - apply H. reflexivity.
Defined.

(** ** Path translation, as the code has it *)

(** X19: of the path relative to the mount path, the first host separator
    and no other becomes a slash: what follows it enters the container path
    as it is. *)
Theorem relative_path_first_separator (pm : Path.module) (opts : options)
  (hostPath a b : string) :
  Path.relative pm (MOUNT_PATH opts) hostPath = a ++ String (Path.sep pm) b ->
  Docker.forall_chars (fun x => negb (Ascii.eqb x (Path.sep pm))) a = true ->
  relativePath pm opts hostPath = a ++ "/" ++ b /\
  containerPath pm opts hostPath
  = Path.posix_join ["/"; PROJECT_NAME opts; a ++ "/" ++ b; "/"].
Proof.
  intros Hr Ha.
  assert (E : relativePath pm opts hostPath = a ++ "/" ++ b).
  { unfold relativePath. rewrite Hr. apply replace_first_only_first, Ha. }
  split; [exact E|]. unfold containerPath. rewrite E. reflexivity.
Qed.

Lemma relative_path_first_separator_witness :
  relativePath (Path.win32 "C:\game") windows_options "C:\game\node_modules\@n64\mikmod"
  = "node_modules" ++ "/" ++ "@n64\mikmod".
Proof.
  destruct (relative_path_first_separator (Path.win32 "C:\game") windows_options
              "C:\game\node_modules\@n64\mikmod" "node_modules" "@n64\mikmod"
              eq_refl eq_refl) as [H _].
  exact H.
Defined.
